(** * FELIT global chat: the request handlers of [felit_server.js]

    A shallow embedding of the Express handlers ([/login], [/logout],
    [/send], [/messages], [/admin]), of the command line provisioning
    ([init-db], [adduser]) and of the browser client's [sendMessage],
    together with the properties of the handlers stated in the
    specification.

    What the source leaves to its environment is an explicit input of the
    model ([env]): whether a storage call rejects, the order in which the
    SQL engine visits rows before it sorts them, the clock behind
    [CURRENT_TIMESTAMP], the outcome of [bcrypt.compare] and the identifier
    [express-session] draws for a new session. *)

From Stdlib Require Import ZArith String Ascii List Bool Lia.
From Stdlib Require Import Sorting.Sorted Sorting.Permutation.
From stdpp Require Import base option list sorting gmap strings.

Local Open Scope string_scope.
Local Open Scope Z_scope.
Local Open Scope list_scope.

(** ** Text as the store orders it

    SQLite compares [TEXT] with the BINARY collation: byte by byte, a proper
    prefix first.  [String.leb] is that order.  The [ts] column holds
    [CURRENT_TIMESTAMP], the fixed width text [YYYY-MM-DD HH:MM:SS], and is
    ordered the same way. *)

Definition text_le (a b : string) : Prop := String.leb a b = true.

#[global] Instance text_le_dec : RelDecision text_le.
Proof. intros a b. unfold text_le. apply _. Defined.

(** ** Data model: the two tables *)

(** [CREATE TABLE users (id, username UNIQUE, password_hash, is_admin)] *)
Record user := mkUser {
  user_id : Z;
  username : string;
  password_hash : string;
  is_admin : Z
}.

(** [CREATE TABLE messages (id, sender_id, text, ts)] *)
Record message := mkMessage {
  msg_id : Z;
  sender_id : Z;
  text : string;
  ts : string
}.

(** Rows are kept in insertion (rowid) order. *)
Record database := mkDb {
  users : list user;
  messages : list message
}.

(** [req.session.user = { id, username, is_admin }] *)
Record session_user := mkSessionUser {
  su_id : Z;
  su_username : string;
  su_is_admin : bool
}.

(** The process-held session store of [express-session]: session identifier
    to the session's [user].  With [saveUninitialized: false] a session is
    stored only once the login handler has written [user] into it. *)
Record server := mkServer {
  st_db : database;
  st_sessions : gmap string session_user
}.

(** ** Result rows of the three [SELECT]s *)

(** [SELECT m.id, m.text, m.ts, u.username, u.is_admin] *)
Record msg_row := mkMsgRow {
  row_id : Z;
  row_text : string;
  row_ts : string;
  row_username : string;
  row_is_admin : Z
}.

(** [SELECT m.id, m.text, m.ts, u.username as sender, u.is_admin] *)
Record admin_msg_row := mkAdminMsgRow {
  arow_id : Z;
  arow_text : string;
  arow_ts : string;
  arow_sender : string;
  arow_is_admin : Z
}.

(** [SELECT id, username, is_admin FROM users] *)
Record user_row := mkUserRow {
  urow_id : Z;
  urow_username : string;
  urow_is_admin : Z
}.

(** ** Requests and responses *)

(** A body field is absent ([undefined]) or a string, as the login form and
    the client send them. *)
Inductive route :=
| GetRoot
| PostLogin (username password : option string)
| PostLogout
| PostSend (text : option string)
| GetMessages
| GetAdmin
| GetHealth.

(** [cookie] is the session identifier of a correctly signed cookie, if the
    request carries one. *)
Record request := mkRequest {
  cookie : option string;
  req_route : route
}.

Inductive json_value :=
| JsonRows (rows : list msg_row)
| JsonAdmin (users_ : list user_row) (messages_ : list admin_msg_row)
| JsonStatusOk.

(** The calls on [res] the handlers end with. *)
Inductive response :=
| redirect (url : string)
| send (status : Z) (body : string)
| sendStatus (status : Z)
| json (status : Z) (value : json_value)
| sendFile (path : string).

(** [res.redirect] answers 302 Found; [res.json] and [res.sendFile] without a
    preceding [res.status] answer 200. *)
Definition status_code (r : response) : Z :=
  match r with
  | redirect _ => 302
  | send s _ => s
  | sendStatus s => s
  | json s _ => s
  | sendFile _ => 200
  end.

(** ** The environment of one request *)

Inductive query :=
| SelectUser (name : option string)
| InsertMessage (sender : Z) (body : string)
| InsertUser (name hash : string) (admin : Z)
| SelectMessages
| SelectAdminUsers
| SelectAdminMessages.

Inductive outcome := Resolved | Rejected.

Definition trace := list (query * outcome).

Record env := mkEnv {
  (** the [n]-th storage call of the request rejects when the [n]-th entry
      is [true]; past the end of the list calls resolve *)
  faults : list bool;
  (** the order in which the engine produces the rows of a [SELECT] before
      [ORDER BY] sorts them: SQL fixes the order of a result only as far as
      the [ORDER BY] terms go, the rest is the engine's plan *)
  scan : forall A : Type, list A -> list A;
  (** [CURRENT_TIMESTAMP] *)
  now : string;
  (** [bcrypt.compare(password, hash)]: [None] when the promise rejects *)
  bcrypt_compare : option string -> string -> option bool;
  (** [bcrypt.hash(password, 10)], salted *)
  bcrypt_hash : string -> string;
  (** the identifier generated for a request without a stored session *)
  new_sid : string
}.

(** The engine returns every selected row once, in an order of its choosing. *)
Definition engine_ok (e : env) : Prop :=
  forall (A : Type) (l : list A), Permutation (scan e A l) l.

(** ** Storage calls: promises that resolve or reject

    [run], [get] and [all] wrap one SQL statement in a promise.  A computation
    threads the database, the faults still to come and the log of the calls
    made; [None] is a rejected promise, which an [await] turns into an
    exception. *)

Record world := mkWorld {
  w_db : database;
  w_faults : list bool;
  w_log : trace
}.

Definition M (A : Type) : Type := world -> option A * world.

Definition ret {A} (a : A) : M A := fun w => (Some a, w).

Definition bind {A B} (m : M A) (k : A -> M B) : M B :=
  fun w =>
    match m w with
    | (Some a, w') => k a w'
    | (None, w') => (None, w')
    end.

Notation "'let*' x ':=' m 'in' k" := (bind m (fun x => k))
  (at level 10, x name, m at level 100, k at level 200).

(** [await] of a promise of the environment that is no storage call. *)
Definition await {A} (p : option A) : M A := fun w => (p, w).

(** [try { body } catch (e) { handler }], for handlers that only answer. *)
Definition try_catch {A} (body : M A) (handler : A) (w : world) : A * world :=
  match body w with
  | (Some a, w') => (a, w')
  | (None, w') => (handler, w')
  end.

(** One statement.  It rejects on an I/O fault or when the statement itself
    fails (a constraint); a statement that fails changes nothing. *)
Definition storage_call {A} (q : query)
    (stmt : database -> option (A * database)) : M A :=
  fun w =>
    match w_faults w, stmt (w_db w) with
    | true :: fs, _ =>
        (None, mkWorld (w_db w) fs (w_log w ++ [(q, Rejected)]))
    | fs, None =>
        (None, mkWorld (w_db w) (tail fs) (w_log w ++ [(q, Rejected)]))
    | fs, Some (a, d) =>
        (Some a, mkWorld d (tail fs) (w_log w ++ [(q, Resolved)]))
    end.

Definition run (q : query) (stmt : database -> option database) : M unit :=
  storage_call q (fun d => match stmt d with
                           | Some d' => Some (tt, d')
                           | None => None
                           end).

Definition get {A} (q : query) (sel : database -> option A) : M (option A) :=
  storage_call q (fun d => Some (sel d, d)).

Definition all {A} (q : query) (sel : database -> list A) : M (list A) :=
  storage_call q (fun d => Some (sel d, d)).

(** ** The SQL statements *)

(** [INTEGER PRIMARY KEY AUTOINCREMENT]: one more than the largest id used.
    Rows are never deleted, so that is the largest id present. *)
Definition next_id (ids : list Z) : Z := 1 + fold_right Z.max 0 ids.

(** [SELECT * FROM users WHERE username=?]; an absent parameter is bound as
    NULL, which equals no username. *)
Definition select_user (name : option string) (d : database) : option user :=
  match name with
  | Some n => List.find (fun u => String.eqb (username u) n) (users d)
  | None => None
  end.

(** [INSERT INTO messages(sender_id, text) VALUES(?, ?)]; [ts] takes its
    default. *)
Definition insert_message (sender : Z) (body : string) (stamp : string)
    (d : database) : option database :=
  Some (mkDb (users d)
             (messages d ++
                [mkMessage (next_id (map msg_id (messages d))) sender body stamp])).

(** [INSERT INTO users(username, password_hash, is_admin) VALUES(?,?,?)];
    [username] is UNIQUE. *)
Definition insert_user (name hash : string) (admin : Z) (d : database)
    : option database :=
  if existsb (fun u => String.eqb (username u) name) (users d) then None
  else
    Some (mkDb (users d ++ [mkUser (next_id (map user_id (users d))) name hash admin])
               (messages d)).

(** The rows of [users] with [id = k], each through [sel]. *)
Definition sender_rows {R} (sel : user -> R) (k : Z) (us : list user) : list R :=
  flat_map (fun u => if decide (k = user_id u) then [sel u] else []) us.

(** [FROM messages m JOIN users u ON m.sender_id = u.id] *)
Definition join {R} (sel : message -> user -> R) (d : database) : list R :=
  flat_map (fun m => sender_rows (sel m) (sender_id m) (users d)) (messages d).

Definition asc {A} (key : A -> string) : relation A :=
  fun x y => text_le (key x) (key y).

Definition desc {A} (key : A -> string) : relation A :=
  fun x y => text_le (key y) (key x).

#[global] Instance asc_dec {A} (key : A -> string) : RelDecision (asc key).
Proof. intros x y. unfold asc. apply _. Defined.

#[global] Instance desc_dec {A} (key : A -> string) : RelDecision (desc key).
Proof. intros x y. unfold desc. apply _. Defined.

(** The engine's sort: rows are placed one at a time in front of the first
    row they do not exceed, so only the key is ever compared and rows with
    equal keys stay in the order in which they arrived. *)
Fixpoint insert_row {A} (R : relation A) `{!RelDecision R} (x : A)
    (l : list A) : list A :=
  match l with
  | [] => [x]
  | y :: l' => if decide (R x y) then x :: l else y :: insert_row R x l'
  end.

Definition sort_rows {A} (R : relation A) `{!RelDecision R} (l : list A)
    : list A :=
  fold_right (insert_row R) [] l.

(** [ORDER BY]: the rows as the engine produced them, sorted on the key. *)
Definition order_by {A} (R : relation A) `{!RelDecision R} (e : env)
    (rows : list A) : list A :=
  sort_rows R (scan e A rows).

Definition msg_row_of (m : message) (u : user) : msg_row :=
  mkMsgRow (msg_id m) (text m) (ts m) (username u) (is_admin u).

Definition admin_msg_row_of (m : message) (u : user) : admin_msg_row :=
  mkAdminMsgRow (msg_id m) (text m) (ts m) (username u) (is_admin u).

Definition user_row_of (u : user) : user_row :=
  mkUserRow (user_id u) (username u) (is_admin u).

(** [SELECT ... FROM messages m JOIN users u ... ORDER BY m.ts ASC] *)
Definition select_messages (e : env) (d : database) : list msg_row :=
  order_by (asc row_ts) e (join msg_row_of d).

(** [SELECT id, username, is_admin FROM users ORDER BY username ASC] *)
Definition select_admin_users (e : env) (d : database) : list user_row :=
  order_by (asc urow_username) e (map user_row_of (users d)).

(** [SELECT ... u.username as sender ... ORDER BY m.ts DESC] *)
Definition select_admin_messages (e : env) (d : database) : list admin_msg_row :=
  order_by (desc arow_ts) e (join admin_msg_row_of d).

(** ** JavaScript truthiness of the values tested *)

(** [!text] is true for [undefined] and for the empty string. *)
Definition truthy (v : option string) : bool :=
  match v with
  | Some s => negb (String.eqb s "")
  | None => false
  end.

(** [!!user.is_admin] on an INTEGER column. *)
Definition truthy_int (n : Z) : bool := negb (n =? 0).

(** ** Sessions *)

(** [req.session.user] *)
Definition session_of (st : server) (req : request) : option session_user :=
  match cookie req with
  | Some sid => st_sessions st !! sid
  | None => None
  end.

(** [req.sessionID]: the cookie's identifier when the store knows it, a
    generated one otherwise. *)
Definition sessionID (e : env) (st : server) (req : request) : string :=
  match cookie req with
  | Some sid =>
      match st_sessions st !! sid with
      | Some _ => sid
      | None => new_sid e
      end
  | None => new_sid e
  end.

(** ** The handlers *)

(** What a request leaves behind: the answer, the server afterwards, and the
    storage calls made. *)
Record reply := mkReply {
  rp_response : response;
  rp_server : server;
  rp_log : trace
}.

Definition answer (st : server) (r : response) : reply := mkReply r st [].

(** Runs a handler body that awaits storage calls. *)
Definition serve (e : env) (st : server)
    (h : world -> (response * gmap string session_user) * world) : reply :=
  let '((r, ss), w) := h (mkWorld (st_db st) (faults e) []) in
  mkReply r (mkServer (w_db w) ss) (w_log w).

Definition requireLogin (st : server) (req : request) (next : reply) : reply :=
  match session_of st req with
  | None => answer st (redirect "/login.html")
  | Some _ => next
  end.

Definition get_root (st : server) (req : request) : reply :=
  requireLogin st req (answer st (sendFile "public/chat.html")).

Definition invalid_login : response := send 401 "Invalid username/password".

Definition post_login (e : env) (st : server) (req : request)
    (name password : option string) : reply :=
  serve e st
    (try_catch
       (let* found := get (SelectUser name) (select_user name) in
        match found with
        | None => ret (invalid_login, st_sessions st)
        | Some u =>
            let* ok := await (bcrypt_compare e password (password_hash u)) in
            if negb ok then ret (invalid_login, st_sessions st)
            else
              ret (redirect "/",
                   <[sessionID e st req :=
                       mkSessionUser (user_id u) (username u)
                                     (truthy_int (is_admin u))]>
                     (st_sessions st))
        end)
       (send 500 "Server error", st_sessions st)).

Definition post_logout (e : env) (st : server) (req : request) : reply :=
  answer (mkServer (st_db st) (delete (sessionID e st req) (st_sessions st)))
         (redirect "/login.html").

(** The guard is [!text || !req.session.user]: the insert runs only with a
    text that is present and not empty and with a session user. *)
Definition post_send (e : env) (st : server) (req : request)
    (body : option string) : reply :=
  requireLogin st req
    (match body, session_of st req with
     | Some t, Some u =>
         if negb (truthy body) then answer st (send 400 "Bad Request")
         else
           serve e st
             (try_catch
                (let* _ := run (InsertMessage (su_id u) t)
                               (insert_message (su_id u) t (now e)) in
                 ret (sendStatus 200, st_sessions st))
                (send 500 "Database error", st_sessions st))
     | _, _ => answer st (send 400 "Bad Request")
     end).

Definition get_messages (e : env) (st : server) (req : request) : reply :=
  requireLogin st req
    (serve e st
       (try_catch
          (let* rows := all SelectMessages (select_messages e) in
           ret (json 200 (JsonRows rows), st_sessions st))
          (json 500 (JsonRows []), st_sessions st))).

Definition get_admin (e : env) (st : server) (req : request) : reply :=
  requireLogin st req
    (match session_of st req with
     | Some u =>
         if negb (su_is_admin u) then answer st (send 403 "Forbidden")
         else
           serve e st
             (try_catch
                (let* us := all SelectAdminUsers (select_admin_users e) in
                 let* ms := all SelectAdminMessages (select_admin_messages e) in
                 ret (json 200 (JsonAdmin us ms), st_sessions st))
                (send 500 "Server error", st_sessions st))
     | None => answer st (redirect "/login.html")
     end).

Definition get_health (st : server) : reply :=
  answer st (json 200 JsonStatusOk).

Definition handle (e : env) (st : server) (req : request) : reply :=
  match req_route req with
  | GetRoot => get_root st req
  | PostLogin name password => post_login e st req name password
  | PostLogout => post_logout e st req
  | PostSend body => post_send e st req body
  | GetMessages => get_messages e st req
  | GetAdmin => get_admin e st req
  | GetHealth => get_health st
  end.

(** ** Provisioning from the command line *)

(** [init-db]: an existing database file is left alone, otherwise the two
    tables are created empty. *)
Definition initDb (file : option database) : database :=
  match file with
  | Some d => d
  | None => mkDb [] []
  end.

(** [adduser <username> <password> [admin]] *)
Definition addUserCLI (e : env) (name password : option string)
    (isAdmin : bool) (d : database) : database * trace :=
  match name, password with
  | Some n, Some p =>
      if negb (truthy name) || negb (truthy password) then (d, [])
      else
        let '(_, w) :=
          try_catch
            (run (InsertUser n (bcrypt_hash e p) (if isAdmin then 1 else 0))
                 (insert_user n (bcrypt_hash e p) (if isAdmin then 1 else 0)))
            tt
            (mkWorld d (faults e) []) in
        (w_db w, w_log w)
  | _, _ => (d, [])
  end.

(** [process.argv.slice(2)], run on an initialised database file: [init-db]
    and [adduser] do their work and return, anything else starts the
    server and leaves the database to the requests. *)
Definition cli (e : env) (args : list string) (d : database) : database * trace :=
  match args with
  | "init-db" :: _ => (initDb (Some d), [])
  | "adduser" :: rest =>
      addUserCLI e (rest !! 0%nat) (rest !! 1%nat)
                 (bool_decide (rest !! 2%nat = Some "admin")) d
  | _ => (d, [])
  end.

(** ** The browser client: [sendMessage] *)

(** [String.prototype.trim] on the UTF-8 bytes of the text.  White space and
    line terminators of ECMAScript: TAB, LF, VT, FF, CR, SP, then U+00A0 (two
    bytes) and U+1680, U+2000..U+200A, U+2028, U+2029, U+202F, U+205F, U+3000
    and U+FEFF (three bytes). *)
Definition ws1 (a : ascii) : bool :=
  let n := N_of_ascii a in
  ((9 <=? n) && (n <=? 13) || (n =? 32))%N.

Definition ws2 (a b : ascii) : bool :=
  ((N_of_ascii a =? 194) && (N_of_ascii b =? 160))%N.

Definition ws3 (a b c : ascii) : bool :=
  let x := N_of_ascii a in
  let y := N_of_ascii b in
  let z := N_of_ascii c in
  ((x =? 225) && (y =? 154) && (z =? 128)
   || (x =? 226) && (y =? 128)
        && ((128 <=? z) && (z <=? 138) || (z =? 168) || (z =? 169) || (z =? 175))
   || (x =? 226) && (y =? 129) && (z =? 159)
   || (x =? 227) && (y =? 128) && (z =? 128)
   || (x =? 239) && (y =? 187) && (z =? 191))%N.

(** Drops leading white space; [back] reads the bytes of a character last
    byte first, for a reversed string. *)
Fixpoint strip (back : bool) (s : string) : string :=
  match s with
  | String a s1 =>
      if ws1 a then strip back s1
      else
        match s1 with
        | String b s2 =>
            if (if back then ws2 b a else ws2 a b) then strip back s2
            else
              match s2 with
              | String c s3 =>
                  if (if back then ws3 c b a else ws3 a b c) then strip back s3
                  else s
              | EmptyString => s
              end
        | EmptyString => s
        end
  | EmptyString => s
  end.

Definition trim (s : string) : string :=
  String.rev (strip true (String.rev (strip false s))).

(** [sendMessage]: the request the click sends, if any. *)
Definition sendMessage (input : string) (session_cookie : option string)
    : option request :=
  let t := trim input in
  if negb (truthy (Some t)) then None
  else Some (mkRequest session_cookie (PostSend (Some t))).

(** ** The browser client: [loadMessages] *)

Definition dquote : string := String (ascii_of_nat 34) EmptyString.

(** The [innerHTML] of the element made for one message: the sender in gold
    when [msg.is_admin] is truthy and in pink otherwise, then the text. *)
Definition render (msg : msg_row) : string :=
  ("<b style=" ++ dquote ++ "color:"
     ++ (if truthy_int (row_is_admin msg) then "gold" else "pink")
     ++ dquote ++ ">" ++ row_username msg ++ "</b>: " ++ row_text msg)%string.

(** [loadMessages], given the answer [fetch] ends with: the children of the
    chat box afterwards, each as its [innerHTML].  The status is not looked
    at.  A body that is no JSON (the page a redirect leads to, a text body)
    makes [res.json()] reject before the box is touched; a JSON value that
    is no array empties the box and then fails the loop. *)
Definition loadMessages (fetched : response) (chat : list string) : list string :=
  match fetched with
  | json _ (JsonRows rows) => map render rows
  | json _ _ => []
  | _ => chat
  end.

(** One tick of [setInterval(loadMessages, 2000)] against the server; the
    browser sends the session cookie along. *)
Definition poll (e : env) (st : server) (session_cookie : option string)
    (chat : list string) : list string :=
  loadMessages
    (rp_response (handle e st (mkRequest session_cookie GetMessages))) chat.

(** ** Runs of the server *)

Fixpoint run_requests (st : server) (rs : list (env * request)) : server :=
  match rs with
  | [] => st
  | (e, r) :: rs' => run_requests (rp_server (handle e st r)) rs'
  end.

Definition is_login (r : request) : bool :=
  match req_route r with
  | PostLogin _ _ => true
  | _ => false
  end.


(** What happens to an installation: a request is handled, or a user is
    added from the command line. *)
Inductive step : server -> server -> Prop :=
| step_request (e : env) (req : request) (st : server) :
    step st (rp_server (handle e st req))
| step_adduser (e : env) (name password : option string) (isAdmin : bool)
    (st : server) :
    step st (mkServer (fst (addUserCLI e name password isAdmin (st_db st)))
                      (st_sessions st)).

(** The installations that arise from [init-db] on a new file. *)
Inductive reachable : server -> Prop :=
| reachable_init : reachable (mkServer (initDb None) ∅)
| reachable_step (st st' : server) :
    reachable st -> step st st' -> reachable st'.

(** ** Vocabulary of the properties *)

(** The routes registered with [requireLogin]. *)
Definition guarded (r : route) : bool :=
  match r with
  | GetRoot | PostSend _ | GetMessages | GetAdmin => true
  | PostLogin _ _ | PostLogout | GetHealth => false
  end.


(** No storage call of the request meets a fault. *)
Definition no_fault (e : env) : Prop := forall b, In b (faults e) -> b = false.

(** The sender of [m] is a row of [users]. *)
Definition has_sender (d : database) (m : message) : Prop :=
  Exists (fun u => user_id u = sender_id m) (users d).

#[global] Instance has_sender_dec d m : Decision (has_sender d m).
Proof. unfold has_sender. apply _. Defined.

(** The invariant of the data model: [users.id] is a key and every message
    has an existing sender. *)
Definition referential (d : database) : Prop :=
  NoDup (map user_id (users d)) /\ Forall (has_sender d) (messages d).

(** The user a session names is a row of [users]. *)
Definition session_known (d : database) (su : session_user) : Prop :=
  Exists (fun u => user_id u = su_id su) (users d).

(** Keys are unique, every message has a sender and every session a user. *)
Record consistent (st : server) : Prop := mkConsistent {
  c_referential : referential (st_db st);
  c_usernames : NoDup (map username (users (st_db st)));
  c_messages : NoDup (map msg_id (messages (st_db st)));
  c_sessions : forall sid su,
      st_sessions st !! sid = Some su -> session_known (st_db st) su
}.

(** The credentials are invalid: the username is absent or matches no stored
    user, or the password does not match the hash stored for it. *)
Definition unknown_user (name : option string) (d : database) : Prop :=
  forall u, In u (users d) -> name <> Some (username u).

Definition wrong_password (e : env) (name password : option string)
    (d : database) : Prop :=
  exists u, select_user name d = Some u /\
            bcrypt_compare e password (password_hash u) = Some false.

(** What a message is, apart from its sender: as stored and as listed. *)
Definition stored (m : message) : Z * string * string :=
  (msg_id m, text m, ts m).

Definition listed (r : msg_row) : Z * string * string :=
  (row_id r, row_text r, row_ts r).

Definition admin_listed (r : admin_msg_row) : Z * string * string :=
  (arow_id r, arow_text r, arow_ts r).

Definition is_select (q : query) : bool :=
  match q with
  | SelectUser _ | SelectMessages | SelectAdminUsers | SelectAdminMessages => true
  | InsertMessage _ _ | InsertUser _ _ _ => false
  end.

(** What a user is to the admin view: as stored and as listed. *)
Definition user_stored (u : user) : Z * string * Z :=
  (user_id u, username u, is_admin u).

Definition user_listed (r : user_row) : Z * string * Z :=
  (urow_id r, urow_username r, urow_is_admin r).

(** The engine produces the rows of a [SELECT] in the order of the table it
    scans, as SQLite does for the queries of this server: it walks
    [messages] by rowid and looks each sender up by primary key. *)
Definition table_order (e : env) : Prop :=
  forall (A : Type) (l : list A), scan e A l = l.

(** The three answers to a storage failure. *)
Definition server_errors : list response :=
  [send 500 "Server error"; send 500 "Database error"; json 500 (JsonRows [])].

(** The server with the messages table replaced. *)
Definition with_messages (st : server) (ms : list message) : server :=
  mkServer (mkDb (users (st_db st)) ms) (st_sessions st).

(** ** A small installation, for the examples

    Two provisioned users, root (admin) and alice, both logged in, and two
    messages sent within the same second. *)

Definition demo_compare (password : option string) (hash : string) : option bool :=
  match password with
  | Some p => Some (String.eqb ("$2b$10$" ++ p)%string hash)
  | None => None
  end.

Definition demo_env (fs : list bool) (visit : forall A : Type, list A -> list A) : env :=
  mkEnv fs visit "2024-05-01 10:00:07" demo_compare
        (fun p => ("$2b$10$" ++ p)%string) "sid-3".

(** The engine visits rows in table order, or in the opposite order. *)
Definition forwards : forall A : Type, list A -> list A := fun _ l => l.
Definition backwards : forall A : Type, list A -> list A := fun _ l => rev l.

Definition demo_db : database :=
  mkDb [mkUser 1 "root" "$2b$10$toor" 1; mkUser 2 "alice" "$2b$10$wonder" 0]
       [mkMessage 1 2 "hi" "2024-05-01 10:00:00";
        mkMessage 2 1 "hello" "2024-05-01 10:00:00"].

Definition demo_server : server :=
  mkServer demo_db
           (<["sid-1" := mkSessionUser 1 "root" true]>
              (<["sid-2" := mkSessionUser 2 "alice" false]> ∅)).

(** The installation with a third message whose sender was never a user. *)
Definition demo_orphan : server :=
  with_messages demo_server
    (messages demo_db ++ [mkMessage 3 7 "boo" "2024-05-01 10:00:03"]).

(** ** Vocabulary of the further properties *)

(** The message the insert appends. *)
Definition sent_message (e : env) (st : server) (su : session_user)
    (t : string) : message :=
  mkMessage (next_id (map msg_id (messages (st_db st)))) (su_id su) t (now e).

(** The row listed for a message sent by the session of [u]. *)
Definition sent_row (e : env) (st : server) (t : string) (u : user) : msg_row :=
  mkMsgRow (next_id (map msg_id (messages (st_db st)))) t (now e)
           (username u) (is_admin u).

(** The flag [adduser] stores: 1 for a fourth argument that is exactly
    [admin], 0 otherwise. *)
Definition cli_admin_flag (more : list string) : Z :=
  if bool_decide (more !! 0%nat = Some "admin") then 1 else 0.

(** The user [adduser] appends. *)
Definition added_user (e : env) (n p : string) (more : list string)
    (d : database) : user :=
  mkUser (next_id (map user_id (users d))) n (bcrypt_hash e p)
         (cli_admin_flag more).

(** Message ids grow along the table. *)
Definition ids_increasing (d : database) : Prop :=
  StronglySorted Z.lt (map msg_id (messages d)).

(** An installation after [adduser carol pw], a login and two sends within
    one second. *)
Definition grown_server : server :=
  let e := demo_env [] forwards in
  let st1 := mkServer (fst (addUserCLI e (Some "carol") (Some "pw") false
                                       (initDb None))) ∅ in
  let st2 := rp_server (handle e st1
                          (mkRequest None (PostLogin (Some "carol") (Some "pw")))) in
  let st3 := rp_server (handle e st2
                          (mkRequest (Some "sid-3") (PostSend (Some "first")))) in
  rp_server (handle e st3 (mkRequest (Some "sid-3") (PostSend (Some "second")))).

(** Ascending on the key, and on the number among equal keys. *)
Definition key_then_num {A} (key : A -> string) (num : A -> Z) (x y : A) : Prop :=
  text_le (key x) (key y) /\ (key x = key y -> num x < num y).

(** * Properties *)


(** ** Case analysis on a handler *)

Lemma server_eta (st : server) : mkServer (st_db st) (st_sessions st) = st.
Proof. destruct st; reflexivity. Qed.

Ltac unfold_handlers :=
  unfold handle, get_root, post_login, post_logout, post_send, get_messages,
    get_admin, get_health, requireLogin, answer, serve, try_catch, bind, run,
    get, all, storage_call, await, ret in *.

(** Every way a handler can run: one goal per path through its tests. *)
Ltac handler_paths :=
  unfold_handlers;
  match goal with
  | Hroute : req_route _ = _ |- _ => rewrite Hroute in *
  | |- context [req_route ?r] => destruct (req_route r)
  end;
  simpl in *; repeat case_match; simplify_eq/=; rewrite ?server_eta.



(** ** The order on text *)

Lemma string_compare_not_gt_trans (s1 s2 s3 : string) :
  String.compare s1 s2 <> Gt ->
  String.compare s2 s3 <> Gt ->
  String.compare s1 s3 <> Gt.
Proof.
  revert s2 s3.
  induction s1 as [|a s1 IH]; intros [|b s2] [|c s3]; simpl; try congruence.
  unfold Ascii.compare.
  destruct (N.compare_spec (N_of_ascii a) (N_of_ascii b)) as [Hab|Hab|Hab];
    destruct (N.compare_spec (N_of_ascii b) (N_of_ascii c)) as [Hbc|Hbc|Hbc];
    destruct (N.compare_spec (N_of_ascii a) (N_of_ascii c)) as [Hac|Hac|Hac];
    intros H1 H2; try congruence; try lia; eauto.
Qed.

Lemma text_le_compare (a b : string) : text_le a b <-> String.compare a b <> Gt.
Proof.
  unfold text_le, String.leb.
  destruct (String.compare a b); split; congruence.
Qed.

#[global] Instance text_le_refl : Reflexive text_le.
Proof.
  intros a. destruct (String.leb_total a a) as [H|H]; exact H.
Qed.

#[global] Instance text_le_trans : Transitive text_le.
Proof.
  intros a b c Hab Hbc. apply text_le_compare.
  apply string_compare_not_gt_trans with b; apply text_le_compare; assumption.
Qed.

#[global] Instance text_le_total : Total text_le.
Proof. intros a b. apply String.leb_total. Qed.

#[global] Instance text_le_antisym : AntiSymm eq text_le.
Proof. intros a b. apply String.leb_antisym. Qed.

#[global] Instance asc_trans {A} (key : A -> string) : Transitive (asc key).
Proof. intros x y z. unfold asc. apply text_le_trans. Qed.

#[global] Instance asc_total {A} (key : A -> string) : Total (asc key).
Proof. intros x y. unfold asc. apply text_le_total. Qed.

#[global] Instance desc_trans {A} (key : A -> string) : Transitive (desc key).
Proof. intros x y z H1 H2. unfold desc in *. eapply text_le_trans; eassumption. Qed.

#[global] Instance desc_total {A} (key : A -> string) : Total (desc key).
Proof. intros x y. unfold desc. apply text_le_total. Qed.

(** ** The sort *)

Section Sorting.
Context {A : Type} (R : relation A) `{!RelDecision R}.

Lemma insert_row_perm (x : A) (l : list A) :
  Permutation (insert_row R x l) (x :: l).
Proof.
  induction l as [|y l IH]; simpl.
  - reflexivity.
  - destruct (decide (R x y)).
    + reflexivity.
    + rewrite IH. apply perm_swap.
Qed.

Lemma sort_rows_perm (l : list A) : Permutation (sort_rows R l) l.
Proof.
  induction l as [|x l IH]; simpl.
  - reflexivity.
  - rewrite insert_row_perm. apply perm_skip, IH.
Qed.

Lemma insert_row_HdRel `{!Total R} (a x : A) (l : list A) :
  R a x -> HdRel R a l -> HdRel R a (insert_row R x l).
Proof.
  intros Hax Hl. destruct l as [|y l]; simpl.
  - constructor. exact Hax.
  - destruct (decide (R x y)); constructor.
    + exact Hax.
    + inversion Hl; assumption.
Qed.

Lemma insert_row_sorted `{!Total R} (x : A) (l : list A) :
  Sorted R l -> Sorted R (insert_row R x l).
Proof.
  induction l as [|y l IH]; intros Hs; simpl.
  - repeat constructor.
  - destruct (decide (R x y)) as [Hxy|Hxy].
    + constructor; [exact Hs | constructor; exact Hxy].
    + inversion Hs as [|? ? Hs' Hhd]; subst.
      constructor; [apply IH; exact Hs'|].
      apply insert_row_HdRel; [|exact Hhd].
      destruct (total R x y); [contradiction | assumption].
Qed.

Lemma sort_rows_sorted `{!Total R} (l : list A) : Sorted R (sort_rows R l).
Proof.
  induction l as [|x l IH]; simpl.
  - constructor.
  - apply insert_row_sorted, IH.
Qed.

Lemma sort_rows_strongly_sorted `{!Total R} `{!Transitive R} (l : list A) :
  StronglySorted R (sort_rows R l).
Proof. apply Sorted_StronglySorted; [assumption | apply sort_rows_sorted]. Qed.

(** Rows of one class [P] whose members are all related (rows with one
    key) come out of the sort in the order they went in. *)
Context (P : A -> Prop) `{!forall x, Decision (P x)}.
Hypothesis class_related : forall x y, P x -> P y -> R x y.

Lemma insert_row_filter (x : A) (l : list A) :
  filter P (insert_row R x l) = filter P (x :: l).
Proof.
  induction l as [|y l IH]; simpl.
  - reflexivity.
  - destruct (decide (R x y)) as [Hxy|Hxy].
    + reflexivity.
    + rewrite filter_cons, IH, !filter_cons.
      destruct (decide (P y)) as [Hy|Hy]; [|reflexivity].
      destruct (decide (P x)) as [Hx|Hx]; [|reflexivity].
      exfalso. apply Hxy, class_related; assumption.
Qed.

Lemma sort_rows_stable (l : list A) :
  filter P (sort_rows R l) = filter P l.
Proof.
  induction l as [|x l IH]; simpl.
  - reflexivity.
  - rewrite insert_row_filter, !filter_cons, IH. reflexivity.
Qed.
End Sorting.

(** ** The join *)

Lemma in_sender_rows {R} (sel : user -> R) (k : Z) (us : list user) (r : R) :
  In r (sender_rows sel k us) <-> exists u, In u us /\ k = user_id u /\ r = sel u.
Proof.
  unfold sender_rows. rewrite in_flat_map. split.
  - intros (u & Hu & Hr). destruct (decide (k = user_id u)) as [E|E].
    + destruct Hr as [<-|[]]. exists u. auto.
    + destruct Hr.
  - intros (u & Hu & E & ->). exists u. split; [exact Hu|].
    destruct (decide (k = user_id u)); [left; reflexivity | contradiction].
Qed.

Lemma in_join {R} (sel : message -> user -> R) (d : database) (r : R) :
  In r (join sel d) <->
  exists m u, In m (messages d) /\ In u (users d) /\
              sender_id m = user_id u /\ r = sel m u.
Proof.
  unfold join. rewrite in_flat_map. split.
  - intros (m & Hm & Hr). apply in_sender_rows in Hr as (u & Hu & E & ->).
    exists m, u. auto.
  - intros (m & u & Hm & Hu & E & ->). exists m. split; [exact Hm|].
    apply in_sender_rows. exists u. auto.
Qed.

(** No user has the id: no row. *)
Lemma sender_rows_none {R} (sel : user -> R) (k : Z) (us : list user) :
  (forall u, In u us -> user_id u <> k) -> sender_rows sel k us = [].
Proof.
  unfold sender_rows. induction us as [|u us IH]; intros H; simpl.
  - reflexivity.
  - destruct (decide (k = user_id u)) as [E|E].
    + exfalso. apply (H u); [left; reflexivity | symmetry; exact E].
    + simpl. apply IH. intros u' Hu'. apply H. right. exact Hu'.
Qed.

(** The id is a key: the one user that has it gives the one row. *)
Lemma sender_rows_one {R} (sel : user -> R) (k : Z) (us : list user) (u : user) :
  NoDup (map user_id us) -> In u us -> user_id u = k ->
  sender_rows sel k us = [sel u].
Proof.
  induction us as [|u' us IH]; intros Hnd Hin Hk.
  - destruct Hin.
  - simpl in Hnd. apply NoDup_cons in Hnd as [Hnotin Hnd].
    rewrite list_elem_of_In in Hnotin.
    unfold sender_rows in *. simpl.
    destruct (decide (k = user_id u')) as [E|E].
    + destruct Hin as [->|Hin].
      * fold (sender_rows sel k us). rewrite sender_rows_none; [reflexivity|].
        intros v Hv Hvk. apply Hnotin. rewrite <- E, <- Hvk.
        apply in_map, Hv.
      * exfalso. apply Hnotin. rewrite <- E, <- Hk. apply in_map, Hin.
    + destruct Hin as [->|Hin]; [congruence|].
      simpl. apply IH; assumption.
Qed.

(** With the invariant the join has one row per message, in the order of the
    messages: what a row takes from its message is read off the table. *)
Lemma join_columns {R X} (sel : message -> user -> R) (col : R -> X)
    (col' : message -> X) (d : database) :
  (forall m u, col (sel m u) = col' m) ->
  referential d ->
  map col (join sel d) = map col' (messages d).
Proof.
  intros Hcol [Hnd Hall]. unfold join.
  induction Hall as [|m ms Hm _ IH]; simpl.
  - reflexivity.
  - apply List.Exists_exists in Hm as (u & Hu & Hk).
    rewrite (sender_rows_one (sel m) (sender_id m) (users d) u Hnd Hu Hk).
    simpl. rewrite Hcol, IH. reflexivity.
Qed.

(** A message without sender gives no row. *)
Lemma join_orphan {R} (sel : message -> user -> R) (us : list user)
    (ms1 ms2 : list message) (m : message) :
  ~ has_sender (mkDb us (ms1 ++ m :: ms2)) m ->
  join sel (mkDb us (ms1 ++ m :: ms2)) = join sel (mkDb us (ms1 ++ ms2)).
Proof.
  intros Hm. unfold join. simpl.
  rewrite !flat_map_app. simpl. rewrite sender_rows_none; [reflexivity|].
  intros u Hu Hk. apply Hm. apply List.Exists_exists. exists u. auto.
Qed.

Lemma NoDup_map_inj {X Y} (f : X -> Y) (l : list X) (x y : X) :
  NoDup (map f l) -> In x l -> In y l -> f x = f y -> x = y.
Proof.
  induction l as [|a l IH]; simpl; intros Hnd Hx Hy E; [destruct Hx|].
  apply NoDup_cons in Hnd as [Hnotin Hnd].
  rewrite list_elem_of_In in Hnotin.
  destruct Hx as [->|Hx], Hy as [->|Hy]; auto.
  - exfalso. apply Hnotin. rewrite E. apply in_map, Hy.
  - exfalso. apply Hnotin. rewrite <- E. apply in_map, Hx.
Qed.

(** ** Storage calls *)

Lemma no_fault_cases (e : env) :
  no_fault e ->
  faults e = [] \/ exists fs, faults e = false :: fs /\
                              (fs = [] \/ exists fs', fs = false :: fs').
Proof.
  unfold no_fault. intros H. destruct (faults e) as [|b1 [|b2 fs]].
  - left. reflexivity.
  - right. rewrite (H b1) by (left; reflexivity). eauto.
  - right. rewrite (H b1), (H b2) by (simpl; auto). eauto 6.
Qed.

Lemma forwards_ok fs : engine_ok (demo_env fs forwards).
Proof. intros A l. reflexivity. Qed.

Lemma backwards_ok fs : engine_ok (demo_env fs backwards).
Proof. intros A l. simpl. unfold backwards. symmetry. apply Permutation_rev. Qed.

Lemma no_fault_nil fs visit : fs = [] -> no_fault (demo_env fs visit).
Proof. intros -> b []. Qed.

(** ** Sending *)

Lemma trim_blank_examples :
  trim "" = "" /\ trim " " = "" /\ trim "  hi there  " = "hi there".
Proof. repeat split; reflexivity. Qed.

(** C1, as the code has it.  [POST /send] with a valid session and a text
    that is absent or the empty string is answered 400 Bad Request, makes no
    storage call and leaves the server, its messages table included, as it
    was.  The server does not trim: text that is blank only after trimming
    is held back by the client, whose [sendMessage] trims its input, sends
    nothing when the result is empty and otherwise posts the trimmed,
    non-empty text. *)
Theorem send_empty_text_rejected (e : env) (st : server) (req : request)
    (body : option string) (u : session_user) :
  req_route req = PostSend body ->
  session_of st req = Some u ->
  truthy body = false ->
  rp_response (handle e st req) = send 400 "Bad Request" /\
  rp_server (handle e st req) = st /\
  rp_log (handle e st req) = [] /\
  (forall input c, trim input = "" -> sendMessage input c = None) /\
  (forall input c r, sendMessage input c = Some r ->
     r = mkRequest c (PostSend (Some (trim input))) /\
     truthy (Some (trim input)) = true).
Proof.
  intros Hroute Hsess Hbody.
  unfold handle. rewrite Hroute. unfold post_send, requireLogin.
  rewrite Hsess.
  repeat split.
  - destruct body as [t|]; [rewrite Hbody|]; reflexivity.
  - destruct body as [t|]; [rewrite Hbody|]; reflexivity.
  - destruct body as [t|]; [rewrite Hbody|]; reflexivity.
  - intros input c Htrim. unfold sendMessage. rewrite Htrim. reflexivity.
  - unfold sendMessage in H.
    destruct (negb (truthy (Some (trim input)))); congruence.
  - unfold sendMessage in H.
    destruct (truthy (Some (trim input))); simpl in H; congruence.
Qed.

Lemma send_empty_text_rejected_witness :
  let req := mkRequest (Some "sid-2") (PostSend (Some "")) in
  rp_response (handle (demo_env [] forwards) demo_server req)
    = send 400 "Bad Request" /\
  rp_server (handle (demo_env [] forwards) demo_server req) = demo_server.
Proof.
  intros req.
  destruct (send_empty_text_rejected (demo_env [] forwards) demo_server req
              (Some "") (mkSessionUser 2 "alice" false))
    as (H1 & H2 & _); [reflexivity | reflexivity | reflexivity |].
  split; assumption.
Defined.

(** C1 fails as stated: a text of one space is empty after trimming, yet the
    server answers 200 and stores it as a new row. *)
Lemma send_blank_text_stored :
  let req := mkRequest (Some "sid-2") (PostSend (Some " ")) in
  let out := handle (demo_env [] forwards) demo_server req in
  trim " " = "" /\
  session_of demo_server req = Some (mkSessionUser 2 "alice" false) /\
  rp_response out = sendStatus 200 /\
  messages (st_db (rp_server out)) =
    messages demo_db ++ [mkMessage 3 2 " " "2024-05-01 10:00:07"].
Proof. repeat split; reflexivity. Qed.

(** ** Listing *)


(** The list handler when its one storage call resolves. *)
Lemma get_messages_resolved (e : env) (st : server) (req : request)
    (u : session_user) :
  req_route req = GetMessages ->
  session_of st req = Some u ->
  no_fault e ->
  handle e st req =
    mkReply (json 200 (JsonRows (select_messages e (st_db st)))) st
            [(SelectMessages, Resolved)].
Proof.
  intros Hroute Hsess Hok.
  unfold handle. rewrite Hroute. unfold get_messages, requireLogin.
  rewrite Hsess.
  unfold serve, try_catch, bind, all, storage_call, ret. simpl.
  destruct (no_fault_cases e Hok) as [->|(fs & -> & _)]; simpl;
    rewrite server_eta; reflexivity.
Qed.

Lemma order_by_perm {A} (R : relation A) `{!RelDecision R} (e : env)
    (rows : list A) :
  engine_ok e -> Permutation (order_by R e rows) rows.
Proof.
  intros He. unfold order_by. rewrite sort_rows_perm. apply He.
Qed.

Lemma select_messages_in (e : env) (d : database) (r : msg_row) :
  engine_ok e ->
  In r (select_messages e d) ->
  exists m u, In m (messages d) /\ In u (users d) /\
              user_id u = sender_id m /\ r = msg_row_of m u.
Proof.
  intros He Hr. unfold select_messages in Hr.
  eapply Permutation_in in Hr; [|apply order_by_perm, He].
  apply in_join in Hr as (m & u & Hm & Hu & E & ->).
  exists m, u. auto.
Qed.

(** The list for an engine that visits the rows in any order.  [GET
    /messages] with a valid session, when the read succeeds on a database
    that satisfies the invariant of the data model, returns every stored
    message once (id, text and timestamp), each entry carrying the username
    and admin flag of its sender, sorted ascending by timestamp; entries with
    equal timestamps come in the order in which the engine visited the
    rows. *)
Lemma messages_listed_by_time (e : env) (st : server) (req : request)
    (u : session_user) :
  req_route req = GetMessages ->
  session_of st req = Some u ->
  engine_ok e ->
  no_fault e ->
  referential (st_db st) ->
  exists rows,
    rp_response (handle e st req) = json 200 (JsonRows rows) /\
    Permutation (map listed rows) (map stored (messages (st_db st))) /\
    (forall r, In r rows ->
       exists m v, In m (messages (st_db st)) /\ In v (users (st_db st)) /\
                   user_id v = sender_id m /\ r = msg_row_of m v) /\
    StronglySorted (asc row_ts) rows /\
    (forall t, filter (fun r => row_ts r = t) rows =
               filter (fun r => row_ts r = t)
                      (scan e msg_row (join msg_row_of (st_db st)))).
Proof.
  intros Hroute Hsess He Hok Href.
  rewrite (get_messages_resolved e st req u Hroute Hsess Hok). simpl.
  exists (select_messages e (st_db st)). split; [reflexivity|].
  split; [|split; [|split]].
  - rewrite <- (join_columns msg_row_of listed stored (st_db st))
      by (reflexivity || assumption).
    apply Permutation_map. apply order_by_perm, He.
  - intros r Hr. exact (select_messages_in e (st_db st) r He Hr).
  - unfold select_messages, order_by. apply sort_rows_strongly_sorted; apply _.
  - intros t. unfold select_messages, order_by. apply sort_rows_stable.
    intros x y Hx Hy. unfold asc. rewrite Hx, Hy. reflexivity.
Qed.

Lemma demo_db_referential : referential demo_db.
Proof. split; apply (bool_decide_unpack _); vm_compute; exact I. Qed.

(** Why the order of the visit matters: the two stored messages carry the
    same timestamp, and for an engine that visited the later row first the
    sort on [ts] alone would leave id 2 before id 1. *)
Example messages_tie_not_by_id :
  let e := demo_env [] backwards in
  engine_ok e /\ no_fault e /\ referential demo_db /\
  rp_response (handle e demo_server (mkRequest (Some "sid-2") GetMessages)) =
    json 200 (JsonRows
      [mkMsgRow 2 "hello" "2024-05-01 10:00:00" "root" 1;
       mkMsgRow 1 "hi" "2024-05-01 10:00:00" "alice" 0]).
Proof.
  intros e. split; [apply backwards_ok|].
  split; [apply no_fault_nil; reflexivity|].
  split; [apply demo_db_referential|]. reflexivity.
Qed.

(** The same request when the engine visits the rows in table order: the
    tie comes out in id order. *)
Example messages_tie_in_table_order :
  rp_response (handle (demo_env [] forwards) demo_server
                 (mkRequest (Some "sid-2") GetMessages)) =
    json 200 (JsonRows
      [mkMsgRow 1 "hi" "2024-05-01 10:00:00" "alice" 0;
       mkMsgRow 2 "hello" "2024-05-01 10:00:00" "root" 1]).
Proof. reflexivity. Qed.

(** ** Logging in *)

(** The login handler when the lookup resolves: the three ways it ends. *)
Lemma post_login_resolved (e : env) (st : server) (req : request)
    (name password : option string) :
  req_route req = PostLogin name password ->
  no_fault e ->
  handle e st req =
    match select_user name (st_db st) with
    | None => mkReply invalid_login st [(SelectUser name, Resolved)]
    | Some u =>
        match bcrypt_compare e password (password_hash u) with
        | Some true =>
            mkReply (redirect "/")
                    (mkServer (st_db st)
                       (<[sessionID e st req :=
                            mkSessionUser (user_id u) (username u)
                                          (truthy_int (is_admin u))]>
                          (st_sessions st)))
                    [(SelectUser name, Resolved)]
        | Some false => mkReply invalid_login st [(SelectUser name, Resolved)]
        | None => mkReply (send 500 "Server error") st
                          [(SelectUser name, Resolved)]
        end
    end.
Proof.
  intros Hroute Hok.
  unfold handle. rewrite Hroute.
  unfold post_login, serve, try_catch, bind, get, storage_call, await, ret.
  simpl.
  destruct (no_fault_cases e Hok) as [->|(fs & -> & _)]; simpl;
    (destruct (select_user name (st_db st)) as [u|]; simpl;
     [destruct (bcrypt_compare e password (password_hash u)) as [[]|]; simpl|];
     rewrite ?server_eta; reflexivity).
Qed.

Lemma select_user_none (name : string) (d : database) :
  (forall u, In u (users d) -> username u <> name) ->
  select_user (Some name) d = None.
Proof.
  intros H. simpl. destruct (List.find _ (users d)) as [u|] eqn:E; [|reflexivity].
  apply find_some in E as [Hin Heq]. apply String.eqb_eq in Heq.
  exfalso. exact (H u Hin Heq).
Qed.

Lemma select_user_unique (u : user) (d : database) :
  NoDup (map username (users d)) ->
  In u (users d) ->
  select_user (Some (username u)) d = Some u.
Proof.
  intros Hnd Hin. simpl.
  destruct (List.find _ (users d)) as [v|] eqn:E.
  - apply find_some in E as [Hv Heq]. apply String.eqb_eq in Heq.
    f_equal. apply (NoDup_map_inj username (users d)); assumption.
  - exfalso. apply (find_none _ _ E) in Hin.
    rewrite String.eqb_refl in Hin. discriminate.
Qed.

(** The two branches that answer 401.  [POST /login] for a username that
    matches no stored user, or with a password that [bcrypt.compare] compares
    with the stored hash and finds different, is answered 401 with the one
    body [Invalid username/password] in both cases, and the session store is
    left as it was. *)
Lemma login_invalid_unauthorized (e : env) (st : server) (req : request)
    (name password : option string) :
  req_route req = PostLogin name password ->
  no_fault e ->
  unknown_user name (st_db st) \/ wrong_password e name password (st_db st) ->
  rp_response (handle e st req) = send 401 "Invalid username/password" /\
  status_code (rp_response (handle e st req)) = 401 /\
  rp_server (handle e st req) = st /\
  session_of (rp_server (handle e st req)) req = session_of st req.
Proof.
  intros Hroute Hok Hbad.
  rewrite (post_login_resolved e st req name password Hroute Hok).
  assert (Hsel : select_user name (st_db st) = None \/
                 wrong_password e name password (st_db st)).
  { destruct Hbad as [Hu|Hw]; [left|right; exact Hw].
    destruct name as [n|]; [|reflexivity].
    apply select_user_none. intros u Hin Heq. apply (Hu u Hin). congruence. }
  destruct Hsel as [->|(u & -> & ->)]; repeat split; reflexivity.
Qed.

Lemma login_invalid_unauthorized_witness :
  (** unknown username *)
  rp_response (handle (demo_env [] forwards) demo_server
                 (mkRequest None (PostLogin (Some "mallory") (Some "wonder"))))
    = send 401 "Invalid username/password" /\
  (** known username, wrong password *)
  rp_response (handle (demo_env [] forwards) demo_server
                 (mkRequest None (PostLogin (Some "alice") (Some "guess"))))
    = send 401 "Invalid username/password".
Proof.
  split.
  - apply (login_invalid_unauthorized (demo_env [] forwards) demo_server
             (mkRequest None (PostLogin (Some "mallory") (Some "wonder")))
             (Some "mallory") (Some "wonder")).
    + reflexivity.
    + apply no_fault_nil. reflexivity.
    + left. intros u Hin. simpl in Hin.
      destruct Hin as [<-|[<-|[]]]; discriminate.
  - apply (login_invalid_unauthorized (demo_env [] forwards) demo_server
             (mkRequest None (PostLogin (Some "alice") (Some "guess")))
             (Some "alice") (Some "guess")).
    + reflexivity.
    + apply no_fault_nil. reflexivity.
    + right. exists (mkUser 2 "alice" "$2b$10$wonder" 0). split; reflexivity.
Defined.

(** C3 does not hold of the code.  A login that carries a stored username
    and no password is an invalid login, and the code does not answer it as
    it answers the others: [bcrypt.compare(undefined, hash)] rejects (the
    compare of the example installation does the same), the [catch] answers
    500 [Server error], and the same request for a username that is not
    stored is answered 401.  The two answers tell whether the username
    exists, which the one message of the two 401 branches is there to
    hide. *)
Lemma login_without_password_reveals_user :
  let e := demo_env [] forwards in
  let stored_name := mkRequest None (PostLogin (Some "alice") None) in
  let unknown_name := mkRequest None (PostLogin (Some "mallory") None) in
  select_user (Some "alice") demo_db
    = Some (mkUser 2 "alice" "$2b$10$wonder" 0) /\
  select_user (Some "mallory") demo_db = None /\
  rp_response (handle e demo_server stored_name) = send 500 "Server error" /\
  rp_response (handle e demo_server unknown_name)
    = send 401 "Invalid username/password" /\
  rp_server (handle e demo_server stored_name) = demo_server /\
  rp_server (handle e demo_server unknown_name) = demo_server.
Proof. repeat split; reflexivity. Qed.

(** C4.  [POST /login] with the username of a provisioned user and a
    password that matches its hash succeeds (the redirect to [/]) and stores,
    under the request's session identifier, a session user with that user's
    id and username and with the admin flag of the stored row: true exactly
    when [is_admin] is not 0, so false for the 0 and true for the 1 that
    [adduser] writes. *)
Theorem login_valid_session (e : env) (st : server) (req : request)
    (password : option string) (u : user) :
  req_route req = PostLogin (Some (username u)) password ->
  no_fault e ->
  NoDup (map username (users (st_db st))) ->
  In u (users (st_db st)) ->
  bcrypt_compare e password (password_hash u) = Some true ->
  let out := handle e st req in
  let sid := sessionID e st req in
  rp_response out = redirect "/" /\
  (exists su,
     st_sessions (rp_server out) !! sid = Some su /\
     (forall r, session_of (rp_server out) (mkRequest (Some sid) r) = Some su) /\
     su_id su = user_id u /\
     su_username su = username u /\
     su_is_admin su = truthy_int (is_admin u) /\
     (is_admin u = 0 -> su_is_admin su = false) /\
     (is_admin u = 1 -> su_is_admin su = true)) /\
  st_db (rp_server out) = st_db st.
Proof.
  intros Hroute Hok Hnd Hin Hpw out sid. subst out sid.
  rewrite (post_login_resolved e st req _ password Hroute Hok).
  rewrite (select_user_unique u (st_db st) Hnd Hin), Hpw. simpl.
  split; [reflexivity|]. split; [|reflexivity].
  eexists. split; [apply lookup_insert_eq|].
  split; [intros r; unfold session_of; simpl; apply lookup_insert_eq|].
  simpl. repeat split; intros ->; reflexivity.
Qed.

Lemma login_valid_session_witness :
  let out := handle (demo_env [] forwards) demo_server
               (mkRequest None (PostLogin (Some "root") (Some "toor"))) in
  rp_response out = redirect "/" /\
  st_sessions (rp_server out) !! "sid-3" = Some (mkSessionUser 1 "root" true).
Proof.
  destruct (login_valid_session (demo_env [] forwards) demo_server
              (mkRequest None (PostLogin (Some "root") (Some "toor")))
              (Some "toor") (mkUser 1 "root" "$2b$10$toor" 1))
    as (H1 & (su & H2 & _ & H3 & H4 & H5 & _) & _).
  - reflexivity.
  - apply no_fault_nil. reflexivity.
  - apply (bool_decide_unpack _). vm_compute. exact I.
  - left. reflexivity.
  - reflexivity.
  - split; [exact H1|].
    destruct su as [i n a]. simpl in H3, H4, H5. subst i n a. exact H2.
Defined.

(** ** The admin view *)

Lemma get_admin_forbidden (e : env) (st : server) (req : request)
    (u : session_user) :
  req_route req = GetAdmin ->
  session_of st req = Some u ->
  su_is_admin u = false ->
  handle e st req = mkReply (send 403 "Forbidden") st [].
Proof.
  intros Hroute Hsess Hflag.
  unfold handle. rewrite Hroute. unfold get_admin, requireLogin.
  rewrite Hsess, Hflag. reflexivity.
Qed.

(** The admin handler when both of its storage calls resolve. *)
Lemma get_admin_resolved (e : env) (st : server) (req : request)
    (u : session_user) :
  req_route req = GetAdmin ->
  session_of st req = Some u ->
  su_is_admin u = true ->
  no_fault e ->
  handle e st req =
    mkReply (json 200 (JsonAdmin (select_admin_users e (st_db st))
                                 (select_admin_messages e (st_db st))))
            st
            [(SelectAdminUsers, Resolved); (SelectAdminMessages, Resolved)].
Proof.
  intros Hroute Hsess Hflag Hok.
  unfold handle. rewrite Hroute. unfold get_admin, requireLogin.
  rewrite Hsess, Hflag.
  unfold serve, try_catch, bind, all, storage_call, ret. simpl.
  destruct (no_fault_cases e Hok) as [->|(fs & -> & [->|(fs' & ->)])]; simpl;
    rewrite server_eta; reflexivity.
Qed.

(** C5.  [GET /admin] with a valid session.  When the session's admin flag
    is false the answer is 403 Forbidden and no storage call is made.  When
    it is true and the reads succeed on a database that satisfies the
    invariant of the data model, the answer is a JSON object with all users,
    one entry each with the id, username and admin flag of the stored row,
    and all messages, one entry each with the id, text and timestamp of the
    stored row and the username and admin flag of its sender, the messages
    in descending order of timestamp. *)
Theorem admin_view_gated (e : env) (st : server) (req : request)
    (u : session_user) :
  req_route req = GetAdmin ->
  session_of st req = Some u ->
  (su_is_admin u = false ->
     rp_response (handle e st req) = send 403 "Forbidden" /\
     rp_log (handle e st req) = [] /\
     rp_server (handle e st req) = st) /\
  (su_is_admin u = true ->
     engine_ok e -> no_fault e -> referential (st_db st) ->
     exists us ms,
       rp_response (handle e st req) = json 200 (JsonAdmin us ms) /\
       Permutation (map user_listed us)
                   (map user_stored (users (st_db st))) /\
       Permutation (map admin_listed ms) (map stored (messages (st_db st))) /\
       (forall r, In r ms ->
          exists m v, In m (messages (st_db st)) /\ In v (users (st_db st)) /\
                      user_id v = sender_id m /\
                      arow_id r = msg_id m /\ arow_text r = text m /\
                      arow_ts r = ts m /\
                      arow_sender r = username v /\
                      arow_is_admin r = is_admin v) /\
       StronglySorted (desc arow_ts) ms).
Proof.
  intros Hroute Hsess. split.
  - intros Hflag.
    rewrite (get_admin_forbidden e st req u Hroute Hsess Hflag).
    repeat split.
  - intros Hflag He Hok Href.
    rewrite (get_admin_resolved e st req u Hroute Hsess Hflag Hok). simpl.
    exists (select_admin_users e (st_db st)),
           (select_admin_messages e (st_db st)).
    split; [reflexivity|]. split; [|split; [|split]].
    + unfold select_admin_users.
      rewrite (order_by_perm _ e _ He), map_map. reflexivity.
    + rewrite <- (join_columns admin_msg_row_of admin_listed stored (st_db st))
        by (reflexivity || assumption).
      apply Permutation_map. apply order_by_perm, He.
    + intros r Hr. unfold select_admin_messages in Hr.
      eapply Permutation_in in Hr; [|apply order_by_perm, He].
      apply in_join in Hr as (m & v & Hm & Hv & E & ->).
      exists m, v. simpl. auto 10.
    + unfold select_admin_messages, order_by.
      apply sort_rows_strongly_sorted; apply _.
Qed.

Lemma admin_view_gated_witness :
  (** alice is no admin *)
  rp_response (handle (demo_env [] forwards) demo_server
                 (mkRequest (Some "sid-2") GetAdmin)) = send 403 "Forbidden" /\
  (** root is *)
  exists us ms,
    rp_response (handle (demo_env [] forwards) demo_server
                   (mkRequest (Some "sid-1") GetAdmin))
      = json 200 (JsonAdmin us ms) /\
    Permutation (map user_listed us) [(1, "root", 1); (2, "alice", 0)] /\
    Permutation (map admin_listed ms)
                [(1, "hi", "2024-05-01 10:00:00");
                 (2, "hello", "2024-05-01 10:00:00")] /\
    StronglySorted (desc arow_ts) ms.
Proof.
  split.
  - refine (proj1 (proj1 (admin_view_gated (demo_env [] forwards) demo_server
        (mkRequest (Some "sid-2") GetAdmin) (mkSessionUser 2 "alice" false)
        _ _) _)); reflexivity.
  - destruct (proj2 (admin_view_gated (demo_env [] forwards) demo_server
        (mkRequest (Some "sid-1") GetAdmin) (mkSessionUser 1 "root" true)
        eq_refl eq_refl) eq_refl (forwards_ok []) (no_fault_nil [] forwards eq_refl)
        demo_db_referential)
      as (us & ms & H1 & H2 & H3 & _ & H4).
    exists us, ms. auto.
Defined.

(** C10.  [GET /admin] by an admin session, when the reads succeed: the
    users array of the answer is sorted ascending by username. *)
Theorem admin_users_by_name (e : env) (st : server) (req : request)
    (u : session_user) :
  req_route req = GetAdmin ->
  session_of st req = Some u ->
  su_is_admin u = true ->
  no_fault e ->
  exists us ms,
    rp_response (handle e st req) = json 200 (JsonAdmin us ms) /\
    StronglySorted (asc urow_username) us.
Proof.
  intros Hroute Hsess Hflag Hok.
  rewrite (get_admin_resolved e st req u Hroute Hsess Hflag Hok). simpl.
  eexists _, _. split; [reflexivity|].
  unfold select_admin_users, order_by.
  apply sort_rows_strongly_sorted; apply _.
Qed.

Lemma admin_users_by_name_witness :
  exists us ms,
    rp_response (handle (demo_env [] backwards) demo_server
                   (mkRequest (Some "sid-1") GetAdmin))
      = json 200 (JsonAdmin us ms) /\
    StronglySorted (asc urow_username) us.
Proof.
  apply (admin_users_by_name (demo_env [] backwards) demo_server
           (mkRequest (Some "sid-1") GetAdmin) (mkSessionUser 1 "root" true)).
  - reflexivity.
  - reflexivity.
  - reflexivity.
  - apply no_fault_nil. reflexivity.
Defined.

(** ** The session gate *)

(** Only a login writes to the session store. *)
Lemma handle_keeps_logged_out (e : env) (st : server) (req : request)
    (sid : string) :
  is_login req = false ->
  st_sessions st !! sid = None ->
  st_sessions (rp_server (handle e st req)) !! sid = None.
Proof.
  intros Hreq Hsid. unfold is_login in Hreq.
  handler_paths; try assumption; try discriminate.
  all: apply lookup_delete_None; right; assumption.
Qed.

Lemma run_requests_keeps_logged_out (rs : list (env * request)) (st : server)
    (sid : string) :
  Forall (fun x => is_login (snd x) = false) rs ->
  st_sessions st !! sid = None ->
  st_sessions (run_requests st rs) !! sid = None.
Proof.
  revert st. induction rs as [|[e r] rs IH]; intros st Hrs Hsid; simpl.
  - exact Hsid.
  - inversion Hrs as [|? ? Hr Hrs']; subst.
    apply IH; [exact Hrs'|].
    apply handle_keeps_logged_out; assumption.
Qed.

Lemma logout_ends_session (e : env) (st : server) (c : option string)
    (r : route) :
  session_of (rp_server (handle e st (mkRequest c PostLogout)))
             (mkRequest c r) = None.
Proof.
  unfold handle, post_logout, answer, session_of, sessionID. simpl.
  destruct c as [sid|]; [|reflexivity].
  destruct (st_sessions st !! sid) eqn:E.
  - apply lookup_delete_eq.
  - apply lookup_delete_None. right. exact E.
Qed.

Lemma gate_redirects (e : env) (st : server) (req : request) :
  req_route req = GetMessages ->
  session_of st req = None ->
  handle e st req = mkReply (redirect "/login.html") st [].
Proof.
  intros Hroute Hsess. unfold handle. rewrite Hroute.
  unfold get_messages, requireLogin. rewrite Hsess. reflexivity.
Qed.

(** C6, as the code has it.  After a logout, and whatever requests other
    than a login the server handles in between, [GET /messages] with the
    cookie of the session that was logged out is not served: [requireLogin]
    answers with the redirect to [/login.html], which is a 302 and not a 401;
    no storage call is made and the server is left as it was. *)
Theorem messages_after_logout_redirected (e0 e : env) (st : server)
    (c : option string) (rs : list (env * request)) :
  Forall (fun x => is_login (snd x) = false) rs ->
  let st1 := rp_server (handle e0 st (mkRequest c PostLogout)) in
  let st2 := run_requests st1 rs in
  let out := handle e st2 (mkRequest c GetMessages) in
  rp_response out = redirect "/login.html" /\
  status_code (rp_response out) = 302 /\
  rp_log out = [] /\
  rp_server out = st2.
Proof.
  intros Hrs st1 st2 out.
  assert (Hout : session_of st2 (mkRequest c GetMessages) = None).
  { unfold session_of. simpl. destruct c as [sid|]; [|reflexivity].
    apply run_requests_keeps_logged_out; [exact Hrs|].
    exact (logout_ends_session e0 st (Some sid) GetMessages). }
  subst out.
  rewrite (gate_redirects e st2 (mkRequest c GetMessages) eq_refl Hout).
  repeat split.
Qed.

Lemma messages_after_logout_redirected_witness :
  let e := demo_env [] forwards in
  let st1 := rp_server (handle e demo_server (mkRequest (Some "sid-2") PostLogout)) in
  let st2 := run_requests st1 [(e, mkRequest (Some "sid-1") (PostSend (Some "bye")))] in
  rp_response (handle e st2 (mkRequest (Some "sid-2") GetMessages))
    = redirect "/login.html".
Proof.
  intros e st1 st2.
  refine (proj1 (messages_after_logout_redirected e e demo_server (Some "sid-2")
                   [(e, mkRequest (Some "sid-1") (PostSend (Some "bye")))] _)).
  repeat constructor.
Defined.

(** C6 fails as stated when unauthorized means the 401 status: alice logs
    out and asks for the messages with the old cookie; the answer is the 302
    redirect to the login page. *)
Lemma messages_after_logout_not_401 :
  let e := demo_env [] forwards in
  let st1 := rp_server (handle e demo_server (mkRequest (Some "sid-2") PostLogout)) in
  let out := handle e st1 (mkRequest (Some "sid-2") GetMessages) in
  session_of demo_server (mkRequest (Some "sid-2") GetMessages)
    = Some (mkSessionUser 2 "alice" false) /\
  session_of st1 (mkRequest (Some "sid-2") GetMessages) = None /\
  rp_response out = redirect "/login.html" /\
  status_code (rp_response out) = 302 /\
  status_code (rp_response out) <> 401.
Proof. repeat split; try reflexivity. discriminate. Qed.

(** ** Storage failures *)

(** C7.  Whatever the request, when one of its storage calls is rejected the
    answer is a 500 with a fixed body, the rejected call was made once and
    was the last one made (every call before it had resolved and none of
    them was this statement), and the server is left as it was. *)
Theorem storage_failure_is_500 (e : env) (st : server) (req : request)
    (q : query) :
  In (q, Rejected) (rp_log (handle e st req)) ->
  status_code (rp_response (handle e st req)) = 500 /\
  In (rp_response (handle e st req)) server_errors /\
  (exists pre,
     rp_log (handle e st req) = pre ++ [(q, Rejected)] /\
     Forall (fun c => snd c = Resolved) pre /\
     ~ In q (map fst pre)) /\
  rp_server (handle e st req) = st.
Proof.
  intros H. handler_paths;
    repeat match goal with H : _ \/ _ |- _ => destruct H end;
    simplify_eq/=; try contradiction.
  all: split; [reflexivity|split; [simpl; tauto|split; [|reflexivity]]].
  all: first
    [ exists []; split; [reflexivity|]; split; [constructor | intros []]
    | exists [(SelectAdminUsers, Resolved)]; split; [reflexivity|];
      split; [repeat constructor | simpl; intuition congruence] ].
Qed.

Lemma storage_failure_is_500_witness :
  status_code
    (rp_response (handle (demo_env [true] forwards) demo_server
                    (mkRequest (Some "sid-2") (PostSend (Some "hi again")))))
    = 500 /\
  status_code
    (rp_response (handle (demo_env [false; true] forwards) demo_server
                    (mkRequest (Some "sid-1") GetAdmin)))
    = 500.
Proof.
  split.
  - apply (storage_failure_is_500 (demo_env [true] forwards) demo_server
             (mkRequest (Some "sid-2") (PostSend (Some "hi again")))
             (InsertMessage 2 "hi again")).
    left. reflexivity.
  - apply (storage_failure_is_500 (demo_env [false; true] forwards)
             demo_server (mkRequest (Some "sid-1") GetAdmin)
             SelectAdminMessages).
    right. left. reflexivity.
Defined.

(** ** Messages without a sender, and reads *)

(** C8.  [GET /messages] inner-joins the messages with the users.  Every
    entry of the answer comes from a stored message and the stored user
    whose id is its [sender_id], and carries that user's username.  A stored
    message whose [sender_id] matches no user contributes nothing: the answer
    is the one the server gives with that row absent from the table. *)
Theorem orphan_messages_omitted (e : env) (st : server) (req : request)
    (u : session_user) :
  req_route req = GetMessages ->
  session_of st req = Some u ->
  engine_ok e ->
  no_fault e ->
  exists rows,
    rp_response (handle e st req) = json 200 (JsonRows rows) /\
    (forall r, In r rows ->
       exists m v, In m (messages (st_db st)) /\ In v (users (st_db st)) /\
                   user_id v = sender_id m /\
                   row_id r = msg_id m /\ row_username r = username v) /\
    (forall ms1 m ms2,
       messages (st_db st) = ms1 ++ m :: ms2 ->
       ~ has_sender (st_db st) m ->
       rp_response (handle e (with_messages st (ms1 ++ ms2)) req)
         = json 200 (JsonRows rows)).
Proof.
  intros Hroute Hsess He Hok.
  rewrite (get_messages_resolved e st req u Hroute Hsess Hok). simpl.
  exists (select_messages e (st_db st)). split; [reflexivity|]. split.
  - intros r Hr.
    destruct (select_messages_in e (st_db st) r He Hr)
      as (m & v & Hm & Hv & E & ->).
    exists m, v. auto.
  - intros ms1 m ms2 Hms Hm.
    rewrite (get_messages_resolved e (with_messages st (ms1 ++ ms2)) req u
               Hroute Hsess Hok).
    simpl. unfold select_messages. do 3 f_equal.
    destruct st as [[us ms] ss]. simpl in *. subst ms.
    symmetry. apply join_orphan. exact Hm.
Qed.

Lemma orphan_messages_omitted_witness :
  exists rows,
    rp_response (handle (demo_env [] forwards) demo_orphan
                   (mkRequest (Some "sid-2") GetMessages))
      = json 200 (JsonRows rows) /\
    rp_response (handle (demo_env [] forwards)
                   (with_messages demo_orphan (messages demo_db ++ []))
                   (mkRequest (Some "sid-2") GetMessages))
      = json 200 (JsonRows rows).
Proof.
  destruct (orphan_messages_omitted (demo_env [] forwards) demo_orphan
              (mkRequest (Some "sid-2") GetMessages)
              (mkSessionUser 2 "alice" false))
    as (rows & H1 & _ & H2).
  - reflexivity.
  - reflexivity.
  - apply forwards_ok.
  - apply no_fault_nil. reflexivity.
  - exists rows. split; [exact H1|].
    apply (H2 (messages demo_db) (mkMessage 3 7 "boo" "2024-05-01 10:00:03") []).
    + reflexivity.
    + apply (bool_decide_unpack _). vm_compute. exact I.
Defined.

(** C9.  [GET /messages] and [GET /admin] only read: whatever the session,
    the faults and the outcome, the server after the request is the server
    before it, both tables included, and every storage call made was a
    [SELECT]. *)
Theorem reads_leave_tables (e : env) (st : server) (req : request) :
  req_route req = GetMessages \/ req_route req = GetAdmin ->
  rp_server (handle e st req) = st /\
  users (st_db (rp_server (handle e st req))) = users (st_db st) /\
  messages (st_db (rp_server (handle e st req))) = messages (st_db st) /\
  Forall (fun c => is_select (fst c) = true) (rp_log (handle e st req)).
Proof.
  intros Hroute.
  assert (H : rp_server (handle e st req) = st /\
              Forall (fun c => is_select (fst c) = true)
                     (rp_log (handle e st req))).
  { destruct Hroute as [Hroute|Hroute]; handler_paths;
      (split; [reflexivity | repeat constructor]). }
  destruct H as [H1 H2]. rewrite H1. auto.
Qed.

Lemma reads_leave_tables_witness :
  rp_server (handle (demo_env [] forwards) demo_server
               (mkRequest (Some "sid-2") GetMessages)) = demo_server /\
  rp_server (handle (demo_env [false; true] backwards) demo_server
               (mkRequest (Some "sid-1") GetAdmin)) = demo_server.
Proof.
  split.
  - apply (reads_leave_tables (demo_env [] forwards) demo_server
             (mkRequest (Some "sid-2") GetMessages)).
    left. reflexivity.
  - apply (reads_leave_tables (demo_env [false; true] backwards) demo_server
             (mkRequest (Some "sid-1") GetAdmin)).
    right. reflexivity.
Defined.

(** ** The invariant of the data model is kept *)

Lemma next_id_above (ids : list Z) (x : Z) : In x ids -> x < next_id ids.
Proof.
  unfold next_id. induction ids as [|y ids IH]; simpl; intros Hin.
  - destruct Hin.
  - destruct Hin as [->|Hin]; [lia|]. specialize (IH Hin). lia.
Qed.

Lemma NoDup_snoc_next (ids : list Z) : NoDup ids -> NoDup (ids ++ [next_id ids]).
Proof.
  intros Hnd. apply NoDup_app. split; [exact Hnd|]. split.
  - intros x Hx Hx'. apply list_elem_of_In in Hx.
    apply next_id_above in Hx. apply list_elem_of_singleton in Hx'. lia.
  - apply NoDup_singleton.
Qed.

Lemma consistent_send (st : server) (sid : string) (su : session_user)
    (body stamp : string) :
  consistent st ->
  st_sessions st !! sid = Some su ->
  consistent
    (mkServer
       (mkDb (users (st_db st))
             (messages (st_db st) ++
                [mkMessage (next_id (map msg_id (messages (st_db st))))
                           (su_id su) body stamp]))
       (st_sessions st)).
Proof.
  intros [[Hids Hsenders] Hnames Hmsgs Hsess] Hsu.
  constructor; simpl.
  - split; [exact Hids|]. apply Forall_app. split; [exact Hsenders|].
    constructor; [|constructor]. exact (Hsess sid su Hsu).
  - exact Hnames.
  - rewrite map_app. simpl. apply NoDup_snoc_next, Hmsgs.
  - exact Hsess.
Qed.

Lemma consistent_login (e : env) (st : server) (sid : string)
    (name : option string) (u : user) :
  consistent st ->
  select_user name (st_db st) = Some u ->
  consistent
    (mkServer (st_db st)
       (<[sid := mkSessionUser (user_id u) (username u)
                               (truthy_int (is_admin u))]> (st_sessions st))).
Proof.
  intros [Href Hnames Hmsgs Hsess] Hsel.
  constructor; simpl; try assumption.
  intros sid' su Hlook.
  destruct (decide (sid = sid')) as [->|Hne].
  - rewrite lookup_insert_eq in Hlook. injection Hlook as <-.
    destruct name as [n|]; [|discriminate]. simpl in Hsel.
    apply find_some in Hsel as [Hin _].
    apply List.Exists_exists. exists u. split; [exact Hin | reflexivity].
  - rewrite lookup_insert_ne in Hlook by exact Hne. eapply Hsess, Hlook.
Qed.

Lemma consistent_logout (st : server) (sid : string) :
  consistent st ->
  consistent (mkServer (st_db st) (delete sid (st_sessions st))).
Proof.
  intros [Href Hnames Hmsgs Hsess].
  constructor; simpl; try assumption.
  intros sid' su Hlook. apply lookup_delete_Some in Hlook as [_ Hlook].
  eapply Hsess, Hlook.
Qed.

Lemma handle_consistent (e : env) (st : server) (req : request) :
  consistent st -> consistent (rp_server (handle e st req)).
Proof.
  intros Hst.
  handler_paths; try assumption;
    eauto using consistent_login, consistent_logout.
  all: match goal with
       | H : session_of _ _ = Some _ |- _ =>
           unfold session_of in H; destruct (cookie req) as [sid|];
           [|discriminate]
       end.
  all: eapply consistent_send; eassumption.
Qed.

Lemma consistent_adduser (st : server) (name hash : string) (admin : Z) :
  consistent st ->
  existsb (fun u => String.eqb (username u) name) (users (st_db st)) = false ->
  consistent
    (mkServer
       (mkDb (users (st_db st) ++
                [mkUser (next_id (map user_id (users (st_db st)))) name hash admin])
             (messages (st_db st)))
       (st_sessions st)).
Proof.
  intros [[Hids Hsenders] Hnames Hmsgs Hsess] Hnew.
  constructor; simpl.
  - split; simpl.
    + rewrite map_app. simpl. apply NoDup_snoc_next, Hids.
    + eapply Forall_impl; [exact Hsenders|].
      intros m Hm. unfold has_sender in *. simpl.
      apply Exists_app. left. exact Hm.
  - rewrite map_app. simpl. apply NoDup_app. split; [exact Hnames|]. split.
    + intros n Hn Hn'. apply list_elem_of_singleton in Hn'. subst n.
      apply list_elem_of_In, in_map_iff in Hn as (u & Hu & Hin).
      assert (existsb (fun u => String.eqb (username u) name)
                      (users (st_db st)) = true) as Habs.
      { apply existsb_exists. exists u. split; [exact Hin|].
        apply String.eqb_eq. exact Hu. }
      congruence.
    + apply NoDup_singleton.
  - exact Hmsgs.
  - intros sid su Hlook. unfold session_known. simpl.
    apply Exists_app. left. exact (Hsess sid su Hlook).
Qed.

Lemma adduser_consistent (e : env) (name password : option string)
    (isAdmin : bool) (st : server) :
  consistent st ->
  consistent (mkServer (fst (addUserCLI e name password isAdmin (st_db st)))
                       (st_sessions st)).
Proof.
  intros Hst. unfold addUserCLI, try_catch, run, storage_call, insert_user.
  repeat case_match; simplify_eq/=; rewrite ?server_eta; try assumption.
  all: apply consistent_adduser; assumption.
Qed.

(** Every installation that arises satisfies the invariant. *)
Lemma reachable_consistent (st : server) : reachable st -> consistent st.
Proof.
  induction 1 as [|st st' _ IH Hstep].
  - constructor; simpl.
    + split; constructor.
    + constructor.
    + constructor.
    + intros sid su Hlook. rewrite lookup_empty in Hlook. discriminate.
  - destruct Hstep.
    + apply handle_consistent, IH.
    + apply adduser_consistent, IH.
Qed.

(** * Further properties of the code *)

(** ** Sending a message *)

(** The send handler when the insert resolves. *)
Lemma post_send_resolved (e : env) (st : server) (req : request)
    (t : string) (su : session_user) :
  req_route req = PostSend (Some t) ->
  session_of st req = Some su ->
  t <> "" ->
  no_fault e ->
  handle e st req =
    mkReply (sendStatus 200)
            (with_messages st (messages (st_db st) ++ [sent_message e st su t]))
            [(InsertMessage (su_id su) t, Resolved)].
Proof.
  intros Hroute Hsess Ht Hok.
  unfold handle. rewrite Hroute. unfold post_send, requireLogin.
  rewrite Hsess. simpl.
  destruct (String.eqb_spec t "") as [->|_]; [contradiction|]. simpl.
  unfold serve, try_catch, bind, run, storage_call, insert_message, ret.
  simpl.
  destruct (no_fault_cases e Hok) as [->|(fs & -> & _)]; reflexivity.
Qed.

(** X1.  [POST /send] with a valid session and a text that is not empty,
    when the insert resolves: the answer is 200, the messages table grows
    by exactly one row at its end, with an id above every id in the table,
    the session user's id as sender, the text as sent (not trimmed) and the
    current timestamp; the users table and the session store are as
    before. *)
Theorem send_appends_message (e : env) (st : server) (req : request)
    (t : string) (su : session_user) :
  req_route req = PostSend (Some t) ->
  session_of st req = Some su ->
  t <> "" ->
  no_fault e ->
  let out := handle e st req in
  rp_response out = sendStatus 200 /\
  (exists m,
     messages (st_db (rp_server out)) = messages (st_db st) ++ [m] /\
     sender_id m = su_id su /\ text m = t /\ ts m = now e /\
     (forall m', In m' (messages (st_db st)) -> msg_id m' < msg_id m)) /\
  users (st_db (rp_server out)) = users (st_db st) /\
  st_sessions (rp_server out) = st_sessions st.
Proof.
  intros Hroute Hsess Ht Hok out. subst out.
  rewrite (post_send_resolved e st req t su Hroute Hsess Ht Hok). simpl.
  split; [reflexivity|]. split; [|split; reflexivity].
  exists (sent_message e st su t). repeat split.
  intros m' Hm'. simpl. apply next_id_above. apply in_map. exact Hm'.
Qed.

Lemma send_appends_message_witness :
  let out := handle (demo_env [] forwards) demo_server
               (mkRequest (Some "sid-2") (PostSend (Some " see you "))) in
  rp_response out = sendStatus 200 /\
  exists m,
    messages (st_db (rp_server out)) = messages demo_db ++ [m] /\
    sender_id m = 2 /\ text m = " see you ".
Proof.
  destruct (send_appends_message (demo_env [] forwards) demo_server
              (mkRequest (Some "sid-2") (PostSend (Some " see you ")))
              " see you " (mkSessionUser 2 "alice" false))
    as (H1 & (m & H2 & H3 & H4 & _) & _).
  - reflexivity.
  - reflexivity.
  - discriminate.
  - intros b [].
  - split; [exact H1|]. exists m. auto.
Defined.

Lemma join_snoc {R} (sel : message -> user -> R) (us : list user)
    (ms : list message) (m : message) :
  join sel (mkDb us (ms ++ [m])) =
  join sel (mkDb us ms) ++ sender_rows (sel m) (sender_id m) us.
Proof.
  unfold join. simpl. rewrite flat_map_app. simpl. rewrite app_nil_r.
  reflexivity.
Qed.

(** The list after a send: the rows of the list before it and the new one. *)
Lemma list_after_send (e1 e2 : env) (st : server) (req req2 : request)
    (t : string) (su su2 : session_user) :
  consistent st ->
  req_route req = PostSend (Some t) ->
  session_of st req = Some su ->
  t <> "" ->
  no_fault e1 ->
  req_route req2 = GetMessages ->
  session_of st req2 = Some su2 ->
  engine_ok e2 ->
  no_fault e2 ->
  exists rows u,
    rp_response (handle e2 (rp_server (handle e1 st req)) req2)
      = json 200 (JsonRows rows) /\
    In u (users (st_db st)) /\ user_id u = su_id su /\
    Permutation rows (sent_row e1 st t u :: select_messages e2 (st_db st)) /\
    StronglySorted (asc row_ts) rows.
Proof.
  intros Hst Hroute Hsess Ht Hok1 Hroute2 Hsess2 He2 Hok2.
  rewrite (post_send_resolved e1 st req t su Hroute Hsess Ht Hok1). simpl.
  rewrite (get_messages_resolved e2
             (with_messages st (messages (st_db st) ++ [sent_message e1 st su t]))
             req2 su2 Hroute2 Hsess2 Hok2).
  simpl.
  destruct Hst as [[Hids _] _ _ Hknown].
  assert (Hsu : session_known (st_db st) su).
  { unfold session_of in Hsess. destruct (cookie req) as [sid|]; [|discriminate].
    exact (Hknown sid su Hsess). }
  apply List.Exists_exists in Hsu as (u & Hu & Hid).
  exists (select_messages e2
            (mkDb (users (st_db st))
                  (messages (st_db st) ++ [sent_message e1 st su t]))), u.
  split; [reflexivity|]. split; [exact Hu|]. split; [exact Hid|]. split.
  - unfold select_messages.
    rewrite !(order_by_perm _ e2 _ He2).
    rewrite join_snoc.
    rewrite (sender_rows_one _ _ (users (st_db st)) u Hids Hu Hid).
    rewrite <- Permutation_cons_append.
    destruct st as [[us ms] ss]. reflexivity.
  - unfold select_messages, order_by. apply sort_rows_strongly_sorted; apply _.
Qed.

(** X2.  Sending, then listing.  In an installation that satisfies the
    invariant, after a send that succeeds the next [GET /messages] of any
    logged-in session returns what it would have returned before plus one
    entry for the new message, which carries the username and admin flag of
    the stored user behind the sender's session. *)
Theorem send_then_list (e1 e2 : env) (st : server) (req req2 : request)
    (t : string) (su su2 : session_user) :
  consistent st ->
  req_route req = PostSend (Some t) ->
  session_of st req = Some su ->
  t <> "" ->
  no_fault e1 ->
  req_route req2 = GetMessages ->
  session_of st req2 = Some su2 ->
  engine_ok e2 ->
  no_fault e2 ->
  let st' := rp_server (handle e1 st req) in
  exists rows u,
    rp_response (handle e2 st' req2) = json 200 (JsonRows rows) /\
    In u (users (st_db st)) /\ user_id u = su_id su /\
    Permutation rows
      (mkMsgRow (next_id (map msg_id (messages (st_db st)))) t (now e1)
                (username u) (is_admin u)
       :: select_messages e2 (st_db st)).
Proof.
  intros Hst Hroute Hsess Ht Hok1 Hroute2 Hsess2 He2 Hok2 st'. subst st'.
  destruct (list_after_send e1 e2 st req req2 t su su2)
    as (rows & u & H1 & H2 & H3 & H4 & _); try assumption.
  exists rows, u. auto.
Qed.

Lemma demo_consistent : consistent demo_server.
Proof.
  constructor.
  - apply demo_db_referential.
  - apply (bool_decide_unpack _). vm_compute. exact I.
  - apply (bool_decide_unpack _). vm_compute. exact I.
  - intros sid su H. unfold demo_server in H. simpl in H.
    apply lookup_insert_Some in H as [[_ <-]|[_ H]];
      [apply (bool_decide_unpack _); vm_compute; exact I|].
    apply lookup_insert_Some in H as [[_ <-]|[_ H]];
      [apply (bool_decide_unpack _); vm_compute; exact I|].
    rewrite lookup_empty in H. discriminate.
Qed.

Lemma send_then_list_witness :
  let e := demo_env [] forwards in
  let st' := rp_server (handle e demo_server
                          (mkRequest (Some "sid-2") (PostSend (Some "bye")))) in
  exists rows u,
    rp_response (handle e st' (mkRequest (Some "sid-1") GetMessages))
      = json 200 (JsonRows rows) /\
    In u (users demo_db) /\ user_id u = 2 /\
    Permutation rows
      (mkMsgRow 3 "bye" "2024-05-01 10:00:07" (username u) (is_admin u)
       :: select_messages e demo_db).
Proof.
  apply (send_then_list (demo_env [] forwards) (demo_env [] forwards)
           demo_server (mkRequest (Some "sid-2") (PostSend (Some "bye")))
           (mkRequest (Some "sid-1") GetMessages) "bye"
           (mkSessionUser 2 "alice" false) (mkSessionUser 1 "root" true)).
  - apply demo_consistent.
  - reflexivity.
  - reflexivity.
  - discriminate.
  - intros b [].
  - reflexivity.
  - reflexivity.
  - intros A l. reflexivity.
  - intros b [].
Defined.

(** In a list sorted on its key, a row whose key is strictly above the key
    of every other row is the last one. *)
Lemma sorted_last_strict {A} (key : A -> string) (l : list A) (x : A) :
  StronglySorted (asc key) l ->
  In x l ->
  (forall y, In y l -> y = x \/ (text_le (key y) (key x) /\ key y <> key x)) ->
  last l = Some x.
Proof.
  induction l as [|a l IH]; intros Hs Hin Hmax; [destruct Hin|].
  apply StronglySorted_inv in Hs as [Hs Ha].
  destruct l as [|b l].
  - destruct Hin as [->|[]]. reflexivity.
  - change (last (a :: b :: l)) with (last (b :: l)).
    apply IH; [exact Hs| |intros y Hy; apply Hmax; right; exact Hy].
    destruct Hin as [->|Hin]; [|exact Hin].
    assert (Hb : In b (x :: b :: l)) by (right; left; reflexivity).
    destruct (Hmax b Hb) as [->|[Hle Hne]]; [left; reflexivity|].
    exfalso. apply Hne. apply text_le_antisym; [exact Hle|].
    rewrite List.Forall_forall in Ha. apply (Ha b). left. reflexivity.
Qed.

(** X3.  With a clock that has moved on: when the timestamp of the new
    message is strictly later than that of every stored message, the list
    fetched after the send ends with the new message. *)
Theorem send_listed_last (e1 e2 : env) (st : server) (req req2 : request)
    (t : string) (su su2 : session_user) :
  consistent st ->
  req_route req = PostSend (Some t) ->
  session_of st req = Some su ->
  t <> "" ->
  no_fault e1 ->
  req_route req2 = GetMessages ->
  session_of st req2 = Some su2 ->
  engine_ok e2 ->
  no_fault e2 ->
  (forall m, In m (messages (st_db st)) ->
             text_le (ts m) (now e1) /\ ts m <> now e1) ->
  exists rows r,
    rp_response (handle e2 (rp_server (handle e1 st req)) req2)
      = json 200 (JsonRows rows) /\
    last rows = Some r /\
    row_text r = t /\ row_ts r = now e1 /\
    (exists u, In u (users (st_db st)) /\ user_id u = su_id su /\
               row_username r = username u).
Proof.
  intros Hst Hroute Hsess Ht Hok1 Hroute2 Hsess2 He2 Hok2 Hlater.
  destruct (list_after_send e1 e2 st req req2 t su su2)
    as (rows & u & H1 & H2 & H3 & H4 & H5); try assumption.
  exists rows, (sent_row e1 st t u).
  split; [exact H1|]. split; [|simpl; eauto 6].
  apply (sorted_last_strict row_ts); [exact H5| |].
  - apply (Permutation_in _ (Permutation_sym H4)). left. reflexivity.
  - intros y Hy. apply (Permutation_in _ H4) in Hy as [<-|Hy]; [left; reflexivity|].
    right. apply (select_messages_in e2 (st_db st) y He2) in Hy
      as (m & v & Hm & _ & _ & ->).
    simpl. exact (Hlater m Hm).
Qed.

Lemma send_listed_last_witness :
  let e := demo_env [] backwards in
  exists rows r,
    rp_response
      (handle e (rp_server (handle e demo_server
                              (mkRequest (Some "sid-2") (PostSend (Some "bye")))))
              (mkRequest (Some "sid-1") GetMessages))
      = json 200 (JsonRows rows) /\
    last rows = Some r /\ row_text r = "bye".
Proof.
  destruct (send_listed_last (demo_env [] backwards) (demo_env [] backwards)
              demo_server (mkRequest (Some "sid-2") (PostSend (Some "bye")))
              (mkRequest (Some "sid-1") GetMessages) "bye"
              (mkSessionUser 2 "alice" false) (mkSessionUser 1 "root" true))
    as (rows & r & H1 & H2 & H3 & _).
  - apply demo_consistent.
  - reflexivity.
  - reflexivity.
  - discriminate.
  - intros b [].
  - reflexivity.
  - reflexivity.
  - intros A l. simpl. unfold backwards. symmetry. apply Permutation_rev.
  - intros b [].
  - intros m Hm. simpl in Hm.
    destruct Hm as [<-|[<-|[]]]; split; (reflexivity || discriminate).
  - exists rows, r. auto.
Defined.

(** ** The gate and the sessions *)

(** X4.  A request to a route behind [requireLogin] that carries no session
    known to the store is answered with the redirect to [/login.html],
    whatever its body; no storage call is made and nothing changes. *)
Theorem gate_blocks_anonymous (e : env) (st : server) (req : request) :
  guarded (req_route req) = true ->
  session_of st req = None ->
  handle e st req = mkReply (redirect "/login.html") st [].
Proof.
  intros Hg Hsess. unfold handle.
  destruct (req_route req); try discriminate;
    unfold get_root, post_send, get_messages, get_admin, requireLogin;
    rewrite Hsess; reflexivity.
Qed.

Lemma gate_blocks_anonymous_witness :
  handle (demo_env [] forwards) demo_server
         (mkRequest (Some "sid-9") (PostSend (Some "let me in")))
    = mkReply (redirect "/login.html") demo_server [].
Proof.
  apply (gate_blocks_anonymous (demo_env [] forwards) demo_server
           (mkRequest (Some "sid-9") (PostSend (Some "let me in"))));
    reflexivity.
Defined.

(** X5.  A request touches no session but its own: whatever the request and
    its outcome, the store's entry under any identifier other than the
    request's [sessionID] is afterwards what it was. *)
Theorem other_sessions_untouched (e : env) (st : server) (req : request)
    (sid : string) :
  sid <> sessionID e st req ->
  st_sessions (rp_server (handle e st req)) !! sid = st_sessions st !! sid.
Proof.
  intros Hsid.
  handler_paths; try reflexivity.
  all: first [ apply lookup_insert_ne | apply lookup_delete_ne ]; congruence.
Qed.

Lemma other_sessions_untouched_witness :
  st_sessions
    (rp_server (handle (demo_env [] forwards) demo_server
                  (mkRequest (Some "sid-2") PostLogout))) !! "sid-1"
  = Some (mkSessionUser 1 "root" true).
Proof.
  rewrite (other_sessions_untouched (demo_env [] forwards) demo_server
             (mkRequest (Some "sid-2") PostLogout) "sid-1").
  - reflexivity.
  - discriminate.
Defined.

(** X6.  [POST /logout] with the cookie of a stored session removes that
    session and only that one, leaves both tables alone, makes no storage
    call and answers with the redirect to [/login.html]. *)
Theorem logout_removes_own_session (e : env) (st : server) (req : request)
    (c : string) (su : session_user) :
  req_route req = PostLogout ->
  cookie req = Some c ->
  st_sessions st !! c = Some su ->
  handle e st req =
    mkReply (redirect "/login.html")
            (mkServer (st_db st) (delete c (st_sessions st))) [] /\
  (forall r, session_of (rp_server (handle e st req)) (mkRequest (Some c) r)
             = None) /\
  (forall c' r, c' <> c ->
     session_of (rp_server (handle e st req)) (mkRequest (Some c') r)
     = session_of st (mkRequest (Some c') r)).
Proof.
  intros Hroute Hc Hsu.
  assert (H : handle e st req =
              mkReply (redirect "/login.html")
                      (mkServer (st_db st) (delete c (st_sessions st))) []).
  { unfold handle. rewrite Hroute. unfold post_logout, answer, sessionID.
    rewrite Hc, Hsu. reflexivity. }
  rewrite H. split; [reflexivity|]. split.
  - intros r. unfold session_of. simpl. apply lookup_delete_eq.
  - intros c' r Hne. unfold session_of. simpl.
    apply lookup_delete_ne. congruence.
Qed.

Lemma logout_removes_own_session_witness :
  session_of
    (rp_server (handle (demo_env [] forwards) demo_server
                  (mkRequest (Some "sid-2") PostLogout)))
    (mkRequest (Some "sid-2") GetMessages) = None.
Proof.
  apply (logout_removes_own_session (demo_env [] forwards) demo_server
           (mkRequest (Some "sid-2") PostLogout) "sid-2"
           (mkSessionUser 2 "alice" false)); reflexivity.
Defined.

(** X7.  Logging in, then asking for the admin view with the session just
    established.  The answer is 403 when the stored [is_admin] of the user
    is 0 and the admin snapshot (200) when it is anything else. *)
Theorem login_then_admin (e e2 : env) (st : server) (req : request)
    (password : option string) (u : user) :
  req_route req = PostLogin (Some (username u)) password ->
  no_fault e ->
  NoDup (map username (users (st_db st))) ->
  In u (users (st_db st)) ->
  bcrypt_compare e password (password_hash u) = Some true ->
  no_fault e2 ->
  let st' := rp_server (handle e st req) in
  let out := handle e2 st' (mkRequest (Some (sessionID e st req)) GetAdmin) in
  if is_admin u =? 0
  then rp_response out = send 403 "Forbidden" /\ rp_log out = []
  else rp_response out =
         json 200 (JsonAdmin (select_admin_users e2 (st_db st))
                             (select_admin_messages e2 (st_db st))).
Proof.
  intros Hroute Hok Hnd Hin Hpw Hok2 st' out. subst out st'.
  rewrite (post_login_resolved e st req _ password Hroute Hok).
  rewrite (select_user_unique u (st_db st) Hnd Hin), Hpw. simpl.
  set (su := mkSessionUser (user_id u) (username u) (truthy_int (is_admin u))).
  set (st' := mkServer (st_db st) (<[sessionID e st req := su]> (st_sessions st))).
  assert (Hsess : session_of st' (mkRequest (Some (sessionID e st req)) GetAdmin)
                  = Some su).
  { unfold session_of. simpl. apply lookup_insert_eq. }
  set (req2 := mkRequest (Some (sessionID e st req)) GetAdmin) in *.
  destruct (is_admin u =? 0) eqn:Hflag.
  - rewrite (get_admin_forbidden e2 st' req2 su eq_refl Hsess).
    + split; reflexivity.
    + simpl. unfold truthy_int. rewrite Hflag. reflexivity.
  - rewrite (get_admin_resolved e2 st' req2 su eq_refl Hsess).
    + reflexivity.
    + simpl. unfold truthy_int. rewrite Hflag. reflexivity.
    + exact Hok2.
Qed.

Lemma login_then_admin_witness :
  let e := demo_env [] forwards in
  rp_response
    (handle e (rp_server (handle e demo_server
                 (mkRequest None (PostLogin (Some "alice") (Some "wonder")))))
            (mkRequest (Some "sid-3") GetAdmin))
  = send 403 "Forbidden".
Proof.
  refine (proj1 (login_then_admin (demo_env [] forwards) (demo_env [] forwards)
                   demo_server
                   (mkRequest None (PostLogin (Some "alice") (Some "wonder")))
                   (Some "wonder") (mkUser 2 "alice" "$2b$10$wonder" 0)
                   _ _ _ _ _ _)).
  - reflexivity.
  - intros b [].
  - apply (bool_decide_unpack _). vm_compute. exact I.
  - right. left. reflexivity.
  - reflexivity.
  - intros b [].
Defined.

(** X8.  No request changes the users table, and no request removes or
    rewrites a stored message: the messages table afterwards is the table
    before, followed by at most the one row a send by a logged-in session
    inserts. *)
Theorem tables_append_only (e : env) (st : server) (req : request) :
  users (st_db (rp_server (handle e st req))) = users (st_db st) /\
  (messages (st_db (rp_server (handle e st req))) = messages (st_db st) \/
   exists t su,
     req_route req = PostSend (Some t) /\ session_of st req = Some su /\
     messages (st_db (rp_server (handle e st req)))
       = messages (st_db st) ++ [sent_message e st su t]).
Proof.
  handler_paths; (split; [reflexivity|]); try (left; reflexivity).
  all: right; eexists _, _; repeat split; eassumption.
Qed.

(** X9.  What a login reveals when [bcrypt.compare] refuses the password it
    is given (the library rejects a missing argument): the lookup decides
    the answer.  A username that is stored is answered 500 by the handler's
    [catch], any other 401; no session is established either way. *)
Theorem login_rejected_compare (e : env) (st : server) (req : request)
    (name password : option string) :
  req_route req = PostLogin name password ->
  no_fault e ->
  (forall hash, bcrypt_compare e password hash = None) ->
  rp_response (handle e st req) =
    match select_user name (st_db st) with
    | Some _ => send 500 "Server error"
    | None => send 401 "Invalid username/password"
    end /\
  rp_server (handle e st req) = st.
Proof.
  intros Hroute Hok Hcmp.
  rewrite (post_login_resolved e st req name password Hroute Hok).
  destruct (select_user name (st_db st)) as [u|]; [rewrite Hcmp|];
    split; reflexivity.
Qed.

Lemma login_rejected_compare_witness :
  rp_response (handle (demo_env [] forwards) demo_server
                 (mkRequest None (PostLogin (Some "alice") None)))
    = send 500 "Server error" /\
  rp_response (handle (demo_env [] forwards) demo_server
                 (mkRequest None (PostLogin (Some "mallory") None)))
    = send 401 "Invalid username/password".
Proof.
  split.
  - refine (proj1 (login_rejected_compare (demo_env [] forwards) demo_server
                     (mkRequest None (PostLogin (Some "alice") None))
                     (Some "alice") None _ _ _)).
    + reflexivity.
    + intros b [].
    + intros hash. reflexivity.
  - refine (proj1 (login_rejected_compare (demo_env [] forwards) demo_server
                     (mkRequest None (PostLogin (Some "mallory") None))
                     (Some "mallory") None _ _ _)).
    + reflexivity.
    + intros b [].
    + intros hash. reflexivity.
Defined.

(** ** Provisioning *)

Lemma existsb_username (n : string) (us : list user) :
  existsb (fun u => String.eqb (username u) n) us = true <->
  In n (map username us).
Proof.
  rewrite existsb_exists, in_map_iff. split.
  - intros (u & Hu & E). apply String.eqb_eq in E. eauto.
  - intros (u & E & Hu). exists u. split; [exact Hu|].
    apply String.eqb_eq. exact E.
Qed.

Lemma cli_adduser_unfold (e : env) (n p : string) (more : list string)
    (d : database) :
  cli e ("adduser" :: n :: p :: more) d =
  addUserCLI e (Some n) (Some p)
             (bool_decide (more !! 0%nat = Some "admin")) d.
Proof. reflexivity. Qed.

(** X10.  [adduser] without a username or without a password, or with an
    empty one, prints the usage and exits: the database is as before and no
    statement is run. *)
Theorem cli_adduser_usage (e : env) (rest : list string) (d : database) :
  truthy (rest !! 0%nat) = false \/ truthy (rest !! 1%nat) = false ->
  cli e ("adduser" :: rest) d = (d, []).
Proof.
  intros H. simpl. unfold addUserCLI.
  destruct (rest !! 0%nat) as [n|], (rest !! 1%nat) as [p|]; try reflexivity.
  destruct H as [-> | ->]; [reflexivity|].
  rewrite orb_true_r. reflexivity.
Qed.

Lemma cli_adduser_usage_witness :
  cli (demo_env [] forwards) ["adduser"; "bob"] demo_db = (demo_db, []).
Proof.
  apply (cli_adduser_usage (demo_env [] forwards) ["bob"] demo_db).
  right. reflexivity.
Defined.

(** X11.  [adduser] with a username that is already stored: the insert is
    rejected (the column is UNIQUE) whatever else happens, the error is
    caught, and the database is as before; in particular the stored hash and
    admin flag of that user are not replaced. *)
Theorem cli_adduser_duplicate (e : env) (n p : string) (more : list string)
    (d : database) :
  n <> "" -> p <> "" ->
  In n (map username (users d)) ->
  cli e ("adduser" :: n :: p :: more) d =
    (d, [(InsertUser n (bcrypt_hash e p) (cli_admin_flag more), Rejected)]).
Proof.
  intros Hn Hp Hdup. rewrite cli_adduser_unfold.
  unfold addUserCLI, cli_admin_flag. simpl.
  destruct (String.eqb_spec n "") as [->|_]; [contradiction|].
  destruct (String.eqb_spec p "") as [->|_]; [contradiction|]. simpl.
  unfold try_catch, run, storage_call, insert_user. simpl.
  apply existsb_username in Hdup. rewrite Hdup.
  destruct (faults e) as [|[] fs]; destruct (bool_decide _); reflexivity.
Qed.

Lemma cli_adduser_duplicate_witness :
  fst (cli (demo_env [] forwards) ["adduser"; "alice"; "new"; "admin"] demo_db)
  = demo_db.
Proof.
  rewrite (cli_adduser_duplicate (demo_env [] forwards) "alice" "new"
             ["admin"] demo_db).
  - reflexivity.
  - discriminate.
  - discriminate.
  - right. left. reflexivity.
Defined.

Lemma cli_adduser_resolved (e : env) (n p : string) (more : list string)
    (d : database) :
  n <> "" -> p <> "" ->
  ~ In n (map username (users d)) ->
  no_fault e ->
  cli e ("adduser" :: n :: p :: more) d =
    (mkDb (users d ++ [added_user e n p more d]) (messages d),
     [(InsertUser n (bcrypt_hash e p) (cli_admin_flag more), Resolved)]).
Proof.
  intros Hn Hp Hnew Hok. rewrite cli_adduser_unfold.
  unfold addUserCLI, added_user, cli_admin_flag. simpl.
  destruct (String.eqb_spec n "") as [->|_]; [contradiction|].
  destruct (String.eqb_spec p "") as [->|_]; [contradiction|]. simpl.
  unfold try_catch, run, storage_call, insert_user. simpl.
  destruct (existsb _ (users d)) eqn:E.
  { apply existsb_username in E. contradiction. }
  destruct (no_fault_cases e Hok) as [->|(fs & -> & _)];
    destruct (bool_decide _); reflexivity.
Qed.

(** X12.  [adduser] with a username that is not yet stored and a password,
    when the insert resolves: the users table grows by one row at its end,
    with an id above every stored id, the username, the hash of the
    password, and the admin flag 1 exactly when the fourth argument is the
    word [admin] (0 for anything else, or nothing); the stored users and the
    messages are as before. *)
Theorem cli_adduser_creates (e : env) (n p : string) (more : list string)
    (d : database) :
  n <> "" -> p <> "" ->
  ~ In n (map username (users d)) ->
  no_fault e ->
  let d' := fst (cli e ("adduser" :: n :: p :: more) d) in
  exists u,
    users d' = users d ++ [u] /\
    messages d' = messages d /\
    username u = n /\
    password_hash u = bcrypt_hash e p /\
    (forall v, In v (users d) -> user_id v < user_id u) /\
    (more !! 0%nat = Some "admin" -> is_admin u = 1) /\
    (more !! 0%nat <> Some "admin" -> is_admin u = 0).
Proof.
  intros Hn Hp Hnew Hok d'. subst d'.
  rewrite (cli_adduser_resolved e n p more d Hn Hp Hnew Hok). simpl.
  exists (added_user e n p more d).
  split; [reflexivity|]. split; [reflexivity|].
  split; [reflexivity|]. split; [reflexivity|]. split; [|split].
  - intros v Hv. simpl. apply next_id_above, in_map, Hv.
  - intros H. simpl. unfold cli_admin_flag. rewrite bool_decide_eq_true_2; auto.
  - intros H. simpl. unfold cli_admin_flag. rewrite bool_decide_eq_false_2; auto.
Qed.

Lemma cli_adduser_creates_witness :
  exists u,
    users (fst (cli (demo_env [] forwards) ["adduser"; "bob"; "pw"; "Admin"]
                    demo_db))
      = users demo_db ++ [u] /\
    username u = "bob" /\ is_admin u = 0.
Proof.
  destruct (cli_adduser_creates (demo_env [] forwards) "bob" "pw" ["Admin"]
              demo_db)
    as (u & H1 & _ & H2 & _ & _ & _ & H3).
  - discriminate.
  - discriminate.
  - simpl. intros [H|[H|[]]]; discriminate.
  - intros b [].
  - exists u. split; [exact H1|]. split; [exact H2|]. apply H3. discriminate.
Defined.

Lemma select_user_added (n : string) (us : list user) (ms : list message)
    (u : user) :
  ~ In n (map username us) ->
  username u = n ->
  select_user (Some n) (mkDb (us ++ [u]) ms) = Some u.
Proof.
  intros Hnew Hu. simpl. induction us as [|v us IH]; simpl.
  - rewrite Hu, String.eqb_refl. reflexivity.
  - destruct (String.eqb_spec (username v) n) as [E|E].
    + exfalso. apply Hnew. left. exact E.
    + apply IH. intros H. apply Hnew. right. exact H.
Qed.

(** X13.  Provisioning, then logging in.  After [adduser] has stored a new
    user, a login with the same username and password, for a
    [bcrypt.compare] that accepts the password against the hash that was
    stored, succeeds and establishes a session under that username, whose
    admin flag is true exactly when the user was added with [admin]. *)
Theorem adduser_then_login (e1 e2 : env) (n p : string) (more : list string)
    (st : server) (req : request) :
  n <> "" -> p <> "" ->
  ~ In n (map username (users (st_db st))) ->
  no_fault e1 ->
  req_route req = PostLogin (Some n) (Some p) ->
  no_fault e2 ->
  bcrypt_compare e2 (Some p) (bcrypt_hash e1 p) = Some true ->
  let st1 := mkServer (fst (cli e1 ("adduser" :: n :: p :: more) (st_db st)))
                      (st_sessions st) in
  let out := handle e2 st1 req in
  rp_response out = redirect "/" /\
  exists su,
    st_sessions (rp_server out) !! sessionID e2 st1 req = Some su /\
    su_username su = n /\
    su_is_admin su = bool_decide (more !! 0%nat = Some "admin").
Proof.
  intros Hn Hp Hnew Hok1 Hroute Hok2 Hcmp st1 out. subst out st1.
  rewrite (cli_adduser_resolved e1 n p more (st_db st) Hn Hp Hnew Hok1).
  simpl fst.
  rewrite (post_login_resolved e2 _ req _ _ Hroute Hok2). simpl st_db.
  rewrite (select_user_added n _ _ (added_user e1 n p more (st_db st)) Hnew eq_refl).
  simpl password_hash. rewrite Hcmp. simpl.
  split; [reflexivity|]. eexists. split; [apply lookup_insert_eq|].
  split; [reflexivity|]. simpl. unfold cli_admin_flag.
  destruct (bool_decide _); reflexivity.
Qed.

Lemma adduser_then_login_witness :
  let e := demo_env [] forwards in
  let st1 := mkServer (fst (cli e ["adduser"; "bob"; "pw"; "admin"] demo_db))
                      (st_sessions demo_server) in
  rp_response (handle e st1 (mkRequest None (PostLogin (Some "bob") (Some "pw"))))
  = redirect "/".
Proof.
  refine (proj1 (adduser_then_login (demo_env [] forwards) (demo_env [] forwards)
                   "bob" "pw" ["admin"] demo_server
                   (mkRequest None (PostLogin (Some "bob") (Some "pw")))
                   _ _ _ _ _ _ _)).
  - discriminate.
  - discriminate.
  - simpl. intros [H|[H|[]]]; discriminate.
  - intros b [].
  - reflexivity.
  - intros b [].
  - reflexivity.
Defined.

(** ** Installations that arise *)

Lemma StronglySorted_snoc_next (ids : list Z) :
  StronglySorted Z.lt ids -> StronglySorted Z.lt (ids ++ [next_id ids]).
Proof.
  intros Hs. apply StronglySorted_app. split; [|split].
  - intros x1 x2 H1 H2. apply list_elem_of_singleton in H2. subst x2.
    apply next_id_above. apply list_elem_of_In. exact H1.
  - exact Hs.
  - repeat constructor.
Qed.

Lemma handle_ids_increasing (e : env) (st : server) (req : request) :
  ids_increasing (st_db st) ->
  ids_increasing (st_db (rp_server (handle e st req))).
Proof.
  intros Hst. unfold ids_increasing in *.
  handler_paths; try assumption.
  all: rewrite map_app; apply StronglySorted_snoc_next; assumption.
Qed.

Lemma adduser_messages (e : env) (name password : option string)
    (isAdmin : bool) (d : database) :
  messages (fst (addUserCLI e name password isAdmin d)) = messages d.
Proof.
  unfold addUserCLI, try_catch, run, storage_call, insert_user.
  repeat case_match; simplify_eq/=; reflexivity.
Qed.

Lemma reachable_ids_increasing (st : server) :
  reachable st -> ids_increasing (st_db st).
Proof.
  induction 1 as [|st st' _ IH Hstep].
  - constructor.
  - destruct Hstep.
    + apply handle_ids_increasing, IH.
    + unfold ids_increasing. simpl. rewrite adduser_messages. exact IH.
Qed.

(** X14.  Every installation that arises from [init-db] on a new file
    through requests and [adduser] runs, whatever the requests, the faults
    and the engine, keeps the invariants of the data model: user ids,
    usernames and message ids are unique, message ids grow along the table,
    every message has a stored user as its sender, and every session in the
    store belongs to a stored user. *)
Theorem reachable_invariants (st : server) :
  reachable st ->
  referential (st_db st) /\
  NoDup (map username (users (st_db st))) /\
  NoDup (map msg_id (messages (st_db st))) /\
  ids_increasing (st_db st) /\
  (forall sid su, st_sessions st !! sid = Some su ->
                  exists u, In u (users (st_db st)) /\ user_id u = su_id su).
Proof.
  intros Hst.
  destruct (reachable_consistent st Hst) as [H1 H2 H3 H4].
  split; [exact H1|]. split; [exact H2|]. split; [exact H3|].
  split; [exact (reachable_ids_increasing st Hst)|].
  intros sid su Hsu. apply List.Exists_exists. exact (H4 sid su Hsu).
Qed.

Lemma grown_server_reachable : reachable grown_server.
Proof.
  unfold grown_server.
  eapply reachable_step; [|apply step_request].
  eapply reachable_step; [|apply step_request].
  eapply reachable_step; [|apply step_request].
  eapply reachable_step; [apply reachable_init|].
  exact (step_adduser (demo_env [] forwards) (Some "carol") (Some "pw") false
                      (mkServer (initDb None) ∅)).
Qed.

Lemma reachable_invariants_witness :
  messages (st_db grown_server)
    = [mkMessage 1 1 "first" "2024-05-01 10:00:07";
       mkMessage 2 1 "second" "2024-05-01 10:00:07"] /\
  referential (st_db grown_server) /\
  NoDup (map msg_id (messages (st_db grown_server))).
Proof.
  destruct (reachable_invariants grown_server grown_server_reachable)
    as (H1 & _ & H2 & _).
  split; [reflexivity|]. split; assumption.
Defined.

(** ** Ties, when the engine visits the rows in table order *)

Section TableOrder.
Context {A : Type} (key : A -> string) (num : A -> Z).

Lemma StronglySorted_map_lt (l : list A) :
  StronglySorted Z.lt (map num l) ->
  StronglySorted (fun x y => num x < num y) l.
Proof.
  induction l as [|x l IH]; simpl; intros Hs; [constructor|].
  apply StronglySorted_inv in Hs as [Hs Hx]. constructor; [apply IH, Hs|].
  rewrite List.Forall_forall in *. intros y Hy. apply Hx, in_map, Hy.
Qed.

Lemma insert_row_key_then_num (x : A) (s : list A) :
  StronglySorted (key_then_num key num) s ->
  Forall (fun y => num x < num y) s ->
  StronglySorted (key_then_num key num) (insert_row (asc key) x s).
Proof.
  induction s as [|y s IH]; simpl; intros Hs Hx.
  - repeat constructor.
  - apply StronglySorted_inv in Hs as [Hs Hy].
    apply List.Forall_cons_iff in Hx as [Hxy Hx].
    destruct (decide (asc key x y)) as [Hle|Hnle].
    + constructor; [constructor; assumption|].
      constructor; [split; [exact Hle | intros _; exact Hxy]|].
      rewrite List.Forall_forall in *. intros z Hz. split.
      * transitivity (key y); [exact Hle | apply (Hy z Hz)].
      * intros _. apply (Hx z Hz).
    + assert (Hyx : text_le (key y) (key x)).
      { destruct (text_le_total (key x) (key y)); [contradiction|assumption]. }
      constructor; [apply IH; assumption|].
      rewrite List.Forall_forall in *. intros z Hz.
      apply (Permutation_in _ (insert_row_perm (asc key) x s)) in Hz
        as [<-|Hz]; [|apply (Hy z Hz)].
      split; [exact Hyx|]. intros E. exfalso. apply Hnle.
      unfold asc. rewrite E. reflexivity.
Qed.

Lemma sort_rows_key_then_num (l : list A) :
  StronglySorted (fun x y => num x < num y) l ->
  StronglySorted (key_then_num key num) (sort_rows (asc key) l).
Proof.
  induction l as [|x l IH]; simpl; intros Hs; [constructor|].
  apply StronglySorted_inv in Hs as [Hs Hx].
  apply insert_row_key_then_num; [apply IH, Hs|].
  rewrite List.Forall_forall in *. intros y Hy. apply Hx.
  apply (Permutation_in _ (sort_rows_perm (asc key) l)). exact Hy.
Qed.
End TableOrder.

(** X15.  In an installation that has arisen through the handlers and
    [adduser], when the engine produces the rows of the join in the order
    of the messages table, [GET /messages] lists the messages ascending by
    timestamp and, among equal timestamps, ascending by id. *)
Theorem table_order_ties_by_id (e : env) (st : server) (req : request)
    (su : session_user) :
  reachable st ->
  req_route req = GetMessages ->
  session_of st req = Some su ->
  no_fault e ->
  (forall l : list msg_row, scan e msg_row l = l) ->
  exists rows,
    rp_response (handle e st req) = json 200 (JsonRows rows) /\
    StronglySorted (key_then_num row_ts row_id) rows.
Proof.
  intros Hst Hroute Hsess Hok Hscan.
  rewrite (get_messages_resolved e st req su Hroute Hsess Hok). simpl.
  eexists. split; [reflexivity|].
  unfold select_messages, order_by. rewrite Hscan.
  apply sort_rows_key_then_num, StronglySorted_map_lt.
  rewrite (join_columns msg_row_of row_id msg_id (st_db st)).
  - exact (reachable_ids_increasing st Hst).
  - reflexivity.
  - exact (c_referential st (reachable_consistent st Hst)).
Qed.

Lemma table_order_ties_by_id_witness :
  exists rows,
    rp_response (handle (demo_env [] forwards) grown_server
                        (mkRequest (Some "sid-3") GetMessages))
      = json 200 (JsonRows rows) /\
    StronglySorted (key_then_num row_ts row_id) rows.
Proof.
  apply (table_order_ties_by_id (demo_env [] forwards) grown_server
           (mkRequest (Some "sid-3") GetMessages)
           (mkSessionUser 1 "carol" false)).
  - apply grown_server_reachable.
  - reflexivity.
  - reflexivity.
  - intros b [].
  - intros l. reflexivity.
Defined.

(** ** The client *)

Lemma strip_blank (s : string) :
  Forall (fun a => ws1 a = true) (list_ascii_of_string s) ->
  strip false s = "".
Proof.
  induction s as [|a s IH]; simpl; intros H; [reflexivity|].
  apply List.Forall_cons_iff in H as [Ha Hs]. rewrite Ha. apply IH, Hs.
Qed.

(** X16.  [sendMessage] on an input made only of spaces, tabs and line
    breaks (or on no input at all) sends no request. *)
Theorem client_blank_not_sent (input : string) (c : option string) :
  Forall (fun a => ws1 a = true) (list_ascii_of_string input) ->
  sendMessage input c = None.
Proof.
  intros H. unfold sendMessage, trim. rewrite (strip_blank input H).
  reflexivity.
Qed.

Lemma client_blank_not_sent_witness :
  sendMessage "   " (Some "sid-2") = None.
Proof.
  apply (client_blank_not_sent "   " (Some "sid-2")).
  repeat constructor.
Defined.

(** X17.  The client and the server together: a request that [sendMessage]
    does send, from a logged-in browser, is never turned down as a bad
    request; when the insert resolves it is answered 200 and the row stored
    holds the trimmed input. *)
Theorem client_send_accepted (e : env) (st : server) (input : string)
    (c : option string) (req : request) (su : session_user) :
  sendMessage input c = Some req ->
  session_of st req = Some su ->
  no_fault e ->
  rp_response (handle e st req) = sendStatus 200 /\
  messages (st_db (rp_server (handle e st req)))
    = messages (st_db st) ++ [sent_message e st su (trim input)].
Proof.
  intros Hsend Hsess Hok. unfold sendMessage in Hsend. simpl in Hsend.
  destruct (String.eqb_spec (trim input) "") as [E|E]; simpl in Hsend;
    [discriminate|].
  injection Hsend as <-.
  rewrite (post_send_resolved e st
             (mkRequest c (PostSend (Some (trim input)))) (trim input) su
             eq_refl Hsess E Hok).
  split; reflexivity.
Qed.

Lemma client_send_accepted_witness :
  messages
    (st_db (rp_server (handle (demo_env [] forwards) demo_server
                         (mkRequest (Some "sid-2") (PostSend (Some "on my way"))))))
  = messages demo_db ++ [mkMessage 3 2 "on my way" "2024-05-01 10:00:07"].
Proof.
  refine (proj2 (client_send_accepted (demo_env [] forwards) demo_server
                   "  on my way " (Some "sid-2")
                   (mkRequest (Some "sid-2") (PostSend (Some "on my way")))
                   (mkSessionUser 2 "alice" false) _ _ _)).
  - reflexivity.
  - reflexivity.
  - intros b [].
Defined.

(** X18.  A poll by a logged-in browser whose read succeeds replaces the
    chat box, whatever it held, by one element per listed message, in the
    order of the list; with the invariant of the data model that is one
    element per stored message. *)
Theorem poll_replaces_chat (e : env) (st : server) (c : option string)
    (chat : list string) (su : session_user) :
  session_of st (mkRequest c GetMessages) = Some su ->
  engine_ok e ->
  no_fault e ->
  referential (st_db st) ->
  poll e st c chat = map render (select_messages e (st_db st)) /\
  length (poll e st c chat) = length (messages (st_db st)).
Proof.
  intros Hsess He Hok Href. unfold poll.
  rewrite (get_messages_resolved e st (mkRequest c GetMessages) su
             eq_refl Hsess Hok).
  simpl.
  split; [reflexivity|].
  rewrite length_map.
  rewrite <- (length_map row_id), <- (length_map msg_id (messages (st_db st))).
  rewrite <- (join_columns msg_row_of row_id msg_id (st_db st))
    by (reflexivity || assumption).
  rewrite !length_map. apply Permutation_length.
  apply order_by_perm, He.
Qed.

Lemma poll_replaces_chat_witness :
  length (poll (demo_env [] backwards) demo_server (Some "sid-2")
               ["an old element"]) = 2%nat.
Proof.
  refine (proj2 (poll_replaces_chat (demo_env [] backwards) demo_server
                   (Some "sid-2") ["an old element"]
                   (mkSessionUser 2 "alice" false) _ _ _ _)).
  - reflexivity.
  - intros A l. simpl. unfold backwards. symmetry. apply Permutation_rev.
  - intros b [].
  - split; apply (bool_decide_unpack _); vm_compute; exact I.
Defined.

(** X19.  A poll by a logged-in browser whose read fails empties the chat
    box: the handler answers the failure with an empty array, and
    [loadMessages] renders what it gets without looking at the status. *)
Theorem poll_failure_clears_chat (e : env) (st : server) (c : option string)
    (chat : list string) (su : session_user) (fs : list bool) :
  session_of st (mkRequest c GetMessages) = Some su ->
  faults e = true :: fs ->
  rp_response (handle e st (mkRequest c GetMessages)) = json 500 (JsonRows []) /\
  poll e st c chat = [].
Proof.
  intros Hsess Hf.
  assert (H : rp_response (handle e st (mkRequest c GetMessages))
              = json 500 (JsonRows [])).
  { unfold handle. simpl. unfold get_messages, requireLogin. rewrite Hsess.
    unfold serve, try_catch, bind, all, storage_call, ret. simpl.
    rewrite Hf. reflexivity. }
  split; [exact H|]. unfold poll. rewrite H. reflexivity.
Qed.

Lemma poll_failure_clears_chat_witness :
  poll (demo_env [true] forwards) demo_server (Some "sid-2")
       ["<b>alice</b>: hi"] = [].
Proof.
  refine (proj2 (poll_failure_clears_chat (demo_env [true] forwards) demo_server
                   (Some "sid-2") ["<b>alice</b>: hi"]
                   (mkSessionUser 2 "alice" false) [] _ _)); reflexivity.
Defined.

(** X20.  A poll without a session leaves the chat box as it is: the
    request is redirected to the login page, whose body is no JSON, so
    [loadMessages] fails before it touches the box and the messages shown
    before stay on screen. *)
Theorem poll_logged_out_keeps_chat (e : env) (st : server)
    (c : option string) (chat : list string) :
  session_of st (mkRequest c GetMessages) = None ->
  poll e st c chat = chat.
Proof.
  intros Hsess. unfold poll.
  rewrite (gate_redirects e st (mkRequest c GetMessages) eq_refl Hsess).
  reflexivity.
Qed.

Lemma poll_logged_out_keeps_chat_witness :
  poll (demo_env [] forwards) demo_server None ["<b>alice</b>: hi"]
  = ["<b>alice</b>: hi"].
Proof.
  apply (poll_logged_out_keeps_chat (demo_env [] forwards) demo_server None).
  reflexivity.
Defined.

(** ** What the handlers never do *)

(** X21.  Data is only handed to sessions.  A request answered with the list
    of messages and status 200 came with a session, and a request answered
    with the admin snapshot came with a session whose admin flag is true. *)
Theorem data_only_to_sessions (e : env) (st : server) (req : request) :
  (forall rows, rp_response (handle e st req) = json 200 (JsonRows rows) ->
     exists su, session_of st req = Some su) /\
  (forall s us ms, rp_response (handle e st req) = json s (JsonAdmin us ms) ->
     exists su, session_of st req = Some su /\ su_is_admin su = true).
Proof.
  split.
  - intros rows. handler_paths; intros Hresp; try discriminate; eauto.
  - intros s us ms. handler_paths; intros Hresp; try discriminate.
    all: eexists; split; [reflexivity|].
    all: match goal with
         | Hf : negb (su_is_admin _) = false |- _ =>
             apply negb_false_iff in Hf; exact Hf
         end.
Qed.

(** X22.  A message is only ever inserted in the name of the session that
    sends it: every insert a request makes carries the id of the request's
    session user as sender and the request's text, and a request makes at
    most one. *)
Theorem insert_only_as_self (e : env) (st : server) (req : request)
    (sender : Z) (t : string) (o : outcome) :
  In (InsertMessage sender t, o) (rp_log (handle e st req)) ->
  (exists su, session_of st req = Some su /\ su_id su = sender) /\
  req_route req = PostSend (Some t) /\
  rp_log (handle e st req) = [(InsertMessage sender t, o)].
Proof.
  handler_paths; intros Hlog;
    repeat match goal with H : _ \/ _ |- _ => destruct H end;
    simplify_eq/=; try contradiction.
  all: split; [eexists; split; reflexivity | split; reflexivity].
Qed.

Lemma insert_only_as_self_witness :
  rp_log (handle (demo_env [] forwards) demo_server
            (mkRequest (Some "sid-2") (PostSend (Some "it is me"))))
  = [(InsertMessage 2 "it is me", Resolved)].
Proof.
  apply (insert_only_as_self (demo_env [] forwards) demo_server
           (mkRequest (Some "sid-2") (PostSend (Some "it is me")))
           2 "it is me" Resolved).
  left. reflexivity.
Defined.

(** ** The list, for the engine as it runs the query *)

(** The list when the rows come in table order, on a database that keeps the
    invariants. *)
Lemma list_in_table_order (e : env) (st : server) (req : request)
    (u : session_user) :
  req_route req = GetMessages ->
  session_of st req = Some u ->
  no_fault e ->
  table_order e ->
  referential (st_db st) ->
  ids_increasing (st_db st) ->
  exists rows,
    rp_response (handle e st req) = json 200 (JsonRows rows) /\
    Permutation (map listed rows) (map stored (messages (st_db st))) /\
    (forall r, In r rows ->
       exists m v, In m (messages (st_db st)) /\ In v (users (st_db st)) /\
                   user_id v = sender_id m /\
                   row_id r = msg_id m /\ row_text r = text m /\
                   row_ts r = ts m /\
                   row_username r = username v /\
                   row_is_admin r = is_admin v) /\
    StronglySorted (asc row_ts) rows /\
    StronglySorted (key_then_num row_ts row_id) rows.
Proof.
  intros Hroute Hsess Hok Hscan Href Hids.
  assert (He : engine_ok e).
  { intros A l. rewrite Hscan. reflexivity. }
  rewrite (get_messages_resolved e st req u Hroute Hsess Hok). simpl.
  exists (select_messages e (st_db st)). split; [reflexivity|].
  split; [|split; [|split]].
  - rewrite <- (join_columns msg_row_of listed stored (st_db st))
      by (reflexivity || assumption).
    apply Permutation_map. apply order_by_perm, He.
  - intros r Hr.
    destruct (select_messages_in e (st_db st) r He Hr)
      as (m & v & Hm & Hv & E & ->).
    exists m, v. simpl. auto 10.
  - unfold select_messages, order_by. apply sort_rows_strongly_sorted; apply _.
  - unfold select_messages, order_by. rewrite Hscan.
    apply sort_rows_key_then_num, StronglySorted_map_lt.
    rewrite (join_columns msg_row_of row_id msg_id (st_db st))
      by (reflexivity || assumption).
    exact Hids.
Qed.

(** C2.  [GET /messages] with a valid session, on any installation that has
    arisen from [init-db] through requests and [adduser], when the read
    succeeds and the engine produces the rows in table order (as SQLite
    does for this query): the array returned holds every stored message
    once, with its id, text and timestamp and with the username and admin
    flag of its sender, sorted ascending by creation timestamp, and entries
    with equal timestamps come in ascending order of id, the order of
    insertion. *)
Theorem messages_listed_by_time_then_id (e : env) (st : server)
    (req : request) (u : session_user) :
  reachable st ->
  req_route req = GetMessages ->
  session_of st req = Some u ->
  no_fault e ->
  table_order e ->
  exists rows,
    rp_response (handle e st req) = json 200 (JsonRows rows) /\
    Permutation (map listed rows) (map stored (messages (st_db st))) /\
    (forall r, In r rows ->
       exists m v, In m (messages (st_db st)) /\ In v (users (st_db st)) /\
                   user_id v = sender_id m /\
                   row_id r = msg_id m /\ row_text r = text m /\
                   row_ts r = ts m /\
                   row_username r = username v /\
                   row_is_admin r = is_admin v) /\
    StronglySorted (asc row_ts) rows /\
    StronglySorted (key_then_num row_ts row_id) rows.
Proof.
  intros Hst Hroute Hsess Hok Hscan.
  apply (list_in_table_order e st req u Hroute Hsess Hok Hscan).
  - exact (c_referential st (reachable_consistent st Hst)).
  - exact (reachable_ids_increasing st Hst).
Qed.

(** The installation grown from [init-db]: carol's two messages of the same
    second are listed in the order of their ids. *)
Lemma messages_listed_by_time_then_id_witness :
  exists rows,
    rp_response (handle (demo_env [] forwards) grown_server
                        (mkRequest (Some "sid-3") GetMessages))
      = json 200 (JsonRows rows) /\
    Permutation (map listed rows)
                [(1, "first", "2024-05-01 10:00:07");
                 (2, "second", "2024-05-01 10:00:07")] /\
    StronglySorted (key_then_num row_ts row_id) rows.
Proof.
  destruct (messages_listed_by_time_then_id (demo_env [] forwards) grown_server
              (mkRequest (Some "sid-3") GetMessages)
              (mkSessionUser 1 "carol" false))
    as (rows & H1 & H2 & _ & _ & H3).
  - apply grown_server_reachable.
  - reflexivity.
  - reflexivity.
  - intros b [].
  - intros A l. reflexivity.
  - exists rows. auto.
Defined.
